(** * Student-record login, registration and listing screens

    A shallow embedding of [screens/LoginScreen.tsx] and
    [screens/MahasiswaScreen.tsx], and the properties of the
    authentication, registration, listing and logout flows.

    Conventions of the model.
    - A JavaScript string is a Rocq [string]: a sequence of code units,
      here restricted to the code units below 256 (ASCII and Latin-1), on
      which [trim], [toLowerCase] and the regular expression are modelled
      exactly.
    - The MMKV instance is a finite map from keys to strings;
      [getString] of a missing key is [None] (JavaScript [undefined]).
    - The [mahasiswa] collection is a finite map from document ids to
      documents; every document field is a string or missing.
    - What Firestore does (the reference is refused, the server read
      fails, the cache holds a document, the write is refused, the scan
      fails) is an input of each operation; a server read that succeeds
      returns what the collection holds, and an accepted write stores the
      document.
    - Every side effect is appended to a log, in program order.
    - The code of a component runs in a small monad with normal, [return]
      and [throw] completions, so that [try], [catch], [finally] and the
      early returns of [handleAuth] are written as in the source. *)

From Stdlib Require Import Ascii String List Bool Arith Lia.
From stdpp Require Import base option gmap strings list fin_maps.
Import ListNotations.
Local Open Scope string_scope.

(** ** JavaScript strings *)

Module JS.

(** [WhiteSpace] and [LineTerminator] code units below 256: TAB, LF, VT, FF,
    CR, SP and NBSP. These are what [String.prototype.trim] strips. *)
Definition isWhiteSpace (c : ascii) : bool :=
  let n := nat_of_ascii c in
  (((9 <=? n) && (n <=? 13)) || (n =? 32) || (n =? 160))%nat.

(** [LineTerminator] code units below 256: LF and CR. The regular
    expression atom [.] matches every code unit but these. *)
Definition isLineTerminator (c : ascii) : bool :=
  let n := nat_of_ascii c in
  ((n =? 10) || (n =? 13))%nat.

(** Upper-case letters below 256: A-Z, and the Latin-1 letters
    U+00C0-U+00DE without the multiplication sign U+00D7. *)
Definition isUpper (c : ascii) : bool :=
  let n := nat_of_ascii c in
  (((65 <=? n) && (n <=? 90)) ||
   ((192 <=? n) && (n <=? 222) && negb (n =? 215)))%nat.

Definition toLowerChar (c : ascii) : ascii :=
  if isUpper c then ascii_of_nat (nat_of_ascii c + 32) else c.

(** [s.toLowerCase()] *)
Fixpoint toLowerCase (s : string) : string :=
  match s with
  | EmptyString => EmptyString
  | String c s' => String (toLowerChar c) (toLowerCase s')
  end.

Fixpoint trimStart (s : string) : string :=
  match s with
  | EmptyString => EmptyString
  | String c s' => if isWhiteSpace c then trimStart s' else s
  end.

Fixpoint trimEnd (s : string) : string :=
  match s with
  | EmptyString => EmptyString
  | String c s' =>
      match trimEnd s' with
      | EmptyString => if isWhiteSpace c then EmptyString else String c EmptyString
      | t => String c t
      end
  end.

(** [s.trim()] *)
Definition trim (s : string) : string := trimEnd (trimStart s).

(** Every code unit of the string is white space. *)
Fixpoint allWhiteSpace (s : string) : bool :=
  match s with
  | EmptyString => true
  | String c s' => isWhiteSpace c && allWhiteSpace s'
  end.

(** The string starts, respectively ends, with a white-space code unit. *)
Definition leadingWhiteSpace (s : string) : bool :=
  match s with
  | EmptyString => false
  | String c _ => isWhiteSpace c
  end.

Fixpoint trailingWhiteSpace (s : string) : bool :=
  match s with
  | EmptyString => false
  | String c EmptyString => isWhiteSpace c
  | String _ s' => trailingWhiteSpace s'
  end.

(** JavaScript truthiness of a string: [!s] holds exactly of the empty
    string. *)
Definition truthy (s : string) : bool :=
  match s with
  | EmptyString => false
  | String _ _ => true
  end.

(** [a ?? b] on a field that is a string or missing. *)
Definition nullish (a : option string) (b : string) : string :=
  match a with
  | Some v => v
  | None => b
  end.

End JS.

(** ** Regular expressions: the fragment the email check uses *)

Module RegExp.

Inductive atom : Type :=
  | AnyChar                 (* .  : every code unit but a line terminator *)
  | Literal (c : ascii).    (* a literal code unit, as @ and \. *)

Inductive item : Type :=
  | One (a : atom)          (* a *)
  | OneOrMore (a : atom).   (* a+ *)

Definition atom_matches (a : atom) (c : ascii) : bool :=
  match a with
  | AnyChar => negb (JS.isLineTerminator c)
  | Literal l => Ascii.eqb c l
  end.

(** Does the pattern match a prefix of the string? The greedy branch of
    [a+] is tried first, then the rest of the pattern. *)
Fixpoint match_here (re : list item) : string -> bool :=
  match re with
  | [] => fun _ => true
  | One a :: re' =>
      fun s =>
        match s with
        | EmptyString => false
        | String c s' => atom_matches a c && match_here re' s'
        end
  | OneOrMore a :: re' =>
      fix plus (s : string) : bool :=
        match s with
        | EmptyString => false
        | String c s' => atom_matches a c && (plus s' || match_here re' s')
        end
  end.

(** [re.test(s)] for a pattern without anchors: a match may start at any
    position. *)
Fixpoint test (re : list item) (s : string) : bool :=
  match_here re s ||
  match s with
  | EmptyString => false
  | String _ s' => test re s'
  end.

(** What a pattern denotes: the strings it matches as a whole. *)
Inductive all_match (a : atom) : string -> Prop :=
  | all_match_one c : atom_matches a c = true -> all_match a (String c EmptyString)
  | all_match_more c s :
      atom_matches a c = true -> all_match a s -> all_match a (String c s).

Inductive denotes : list item -> string -> Prop :=
  | denotes_nil : denotes [] EmptyString
  | denotes_one a c re s :
      atom_matches a c = true -> denotes re s ->
      denotes (One a :: re) (String c s)
  | denotes_plus a re s1 s2 :
      all_match a s1 -> denotes re s2 ->
      denotes (OneOrMore a :: re) (s1 ++ s2).

End RegExp.

(** ** The stores, the network and the effect log *)

(** A document of the [mahasiswa] collection, as [snapshot.data()] returns
    it. Registration writes all five fields; a document written by another
    client may lack any of them. *)
Record Doc : Type := {
  d_nim : option string;
  d_nama : option string;
  d_email : option string;
  d_password : option string;
  d_nimKey : option string;
}.

(** A [DocumentSnapshot]: [snap_data] is [None] when the document does not
    exist. *)
Record Snapshot : Type := {
  snap_id : string;
  snap_data : option Doc;
}.

(** A [QueryDocumentSnapshot] of a collection scan: it always exists. *)
Record QueryDocSnapshot : Type := {
  q_id : string;
  q_data : Doc;
}.

Inductive Route : Type := Login | Mahasiswa.

Inductive ConsoleLevel : Type := LogLevel | WarnLevel | ErrorLevel.

Inductive Effect : Type :=
  | GetDocFromServer (key : string) (answer : option Snapshot)
  | GetDocFromCache (key : string) (answer : option Snapshot)
  | SetDoc (key : string) (fields : Doc) (ok : bool)
  | GetDocs (ok : bool)
  | StorageSet (key value : string)
  | StorageDelete (key : string)
  | Alert (title message : string)
  | Console (level : ConsoleLevel) (message : string)
  | NavigationReplace (route : Route).

(** What is outside the component: the MMKV instance, the [mahasiswa]
    collection on the server, and what has been done so far. *)
Record World : Type := {
  storage : gmap string string;
  mahasiswaCollection : gmap string Doc;
  effects : list Effect;
}.

(** What Firestore does during one submit. [reference_accepted] is false
    when [doc] throws, as it does for a key that is not a document path.
    [cache_answer] is the local Firestore cache for the document read:
    [None] when [getDocFromCache] rejects, [Some d] when it resolves to a
    snapshot with data [d]. *)
Record Network : Type := {
  reference_accepted : bool;
  server_reachable : bool;
  cache_answer : option (option Doc);
  write_accepted : bool;
}.

Definition STORAGE_KEYS_nim : string := "user_nim".
Definition STORAGE_KEYS_nama : string := "user_nama".
Definition STORAGE_KEYS_email : string := "user_email".

(** [Object.values(STORAGE_KEYS)], in property order. *)
Definition STORAGE_KEYS_values : list string :=
  [STORAGE_KEYS_nim; STORAGE_KEYS_nama; STORAGE_KEYS_email].

(** ** A monad for component code

    A computation runs on the component state [U] and the world, and
    completes normally, by [return], or by a thrown error. *)

Inductive Completion (R A : Type) : Type :=
  | Normal (a : A)
  | Return (r : R)
  | Throw (err : string).
Arguments Normal {R A} a.
Arguments Return {R A} r.
Arguments Throw {R A} err.

Definition M (U R A : Type) : Type := U * World -> Completion R A * (U * World).

Section Monad.
Context {U R : Type}.

Definition ret {A} (a : A) : M U R A := fun s => (Normal a, s).

Definition bind {A B} (m : M U R A) (k : A -> M U R B) : M U R B :=
  fun s =>
    match m s with
    | (Normal a, s') => k a s'
    | (Return r, s') => (Return r, s')
    | (Throw e, s') => (Throw e, s')
    end.

(** [return r;] *)
Definition return_ {A} (r : R) : M U R A := fun s => (Return r, s).

(** [throw e;] *)
Definition throw {A} (e : string) : M U R A := fun s => (Throw e, s).

(** [try { m } catch (err) { h err }] *)
Definition tryCatch {A} (m : M U R A) (h : string -> M U R A) : M U R A :=
  fun s =>
    match m s with
    | (Throw e, s') => h e s'
    | done => done
    end.

(** [try { m } finally { f }]: [f] runs however [m] completes, and the
    completion of [m] stands unless [f] itself returns or throws. *)
Definition tryFinally {A} (m : M U R A) (f : M U R unit) : M U R A :=
  fun s =>
    match m s with
    | (c, s') =>
        match f s' with
        | (Normal _, s'') => (c, s'')
        | (Return r, s'') => (Return r, s'')
        | (Throw e, s'') => (Throw e, s'')
        end
    end.

(** [if (b) { m }] *)
Definition when (b : bool) (m : M U R unit) : M U R unit :=
  if b then m else ret tt.

(** [xs.forEach(x => f x)] *)
Fixpoint forEach {A} (xs : list A) (f : A -> M U R unit) : M U R unit :=
  match xs with
  | [] => ret tt
  | x :: xs' => bind (f x) (fun _ => forEach xs' f)
  end.

Definition getState : M U R U := fun s => (Normal (fst s), s).

Definition modifyState (f : U -> U) : M U R unit :=
  fun s => (Normal tt, (f (fst s), snd s)).

Definition perform (e : Effect) : M U R unit :=
  fun s =>
    let w := snd s in
    (Normal tt,
     (fst s,
      {| storage := storage w;
         mahasiswaCollection := mahasiswaCollection w;
         effects := effects w ++ [e] |})).

(** *** MMKV *)

(** [storage.getString(key)] *)
Definition storage_getString (key : string) : M U R (option string) :=
  fun s => (Normal (storage (snd s) !! key), s).

(** [storage.set(key, value)] *)
Definition storage_set (key value : string) : M U R unit :=
  fun s =>
    let w := snd s in
    (Normal tt,
     (fst s,
      {| storage := <[key := value]> (storage w);
         mahasiswaCollection := mahasiswaCollection w;
         effects := effects w ++ [StorageSet key value] |})).

(** [storage.delete?.(key)]: the call happens only when the installed
    MMKV has a [delete] method. *)
Definition storage_delete_opt (has_delete : bool) (key : string) : M U R unit :=
  fun s =>
    let w := snd s in
    if has_delete then
      (Normal tt,
       (fst s,
        {| storage := delete key (storage w);
           mahasiswaCollection := mahasiswaCollection w;
           effects := effects w ++ [StorageDelete key] |}))
    else (Normal tt, s).

(** *** Firestore *)

(** [doc(mahasiswaCollection, key)]: the reference, here its key. *)
Definition doc (net : Network) (key : string) : M U R string :=
  if reference_accepted net then ret key
  else throw "firestore/invalid-argument".

(** [await getDocFromServer(docRef)] *)
Definition getDocFromServer (net : Network) (key : string) : M U R Snapshot :=
  fun s =>
    if server_reachable net then
      let snap := {| snap_id := key;
                     snap_data := mahasiswaCollection (snd s) !! key |} in
      bind (perform (GetDocFromServer key (Some snap))) (fun _ => ret snap) s
    else
      bind (perform (GetDocFromServer key None))
           (fun _ => throw "firestore/unavailable") s.

(** [await getDocFromCache(docRef)] *)
Definition getDocFromCache (net : Network) (key : string) : M U R Snapshot :=
  match cache_answer net with
  | Some d =>
      let snap := {| snap_id := key; snap_data := d |} in
      bind (perform (GetDocFromCache key (Some snap))) (fun _ => ret snap)
  | None =>
      bind (perform (GetDocFromCache key None))
           (fun _ => throw "firestore/unavailable")
  end.

(** [await setDoc(docRef, fields)] *)
Definition setDoc (net : Network) (key : string) (fields : Doc) : M U R unit :=
  fun s =>
    let w := snd s in
    if write_accepted net then
      (Normal tt,
       (fst s,
        {| storage := storage w;
           mahasiswaCollection := <[key := fields]> (mahasiswaCollection w);
           effects := effects w ++ [SetDoc key fields true] |}))
    else
      bind (perform (SetDoc key fields false))
           (fun _ => throw "firestore/unavailable") s.

(** [await getDocs(collection(db, MAHASISWA_COLLECTION))]: [None] when
    the scan fails. *)
Definition getDocs (scan : option (list QueryDocSnapshot))
  : M U R (list QueryDocSnapshot) :=
  match scan with
  | Some docs => bind (perform (GetDocs true)) (fun _ => ret docs)
  | None =>
      bind (perform (GetDocs false)) (fun _ => throw "firestore/unavailable")
  end.

(** *** The rest of the platform *)

Definition Alert_alert (title message : string) : M U R unit :=
  perform (Alert title message).

Definition console_log (message : string) : M U R unit :=
  perform (Console LogLevel message).

Definition console_warn (message : string) : M U R unit :=
  perform (Console WarnLevel message).

Definition console_error (message : string) : M U R unit :=
  perform (Console ErrorLevel message).

Definition navigation_replace (route : Route) : M U R unit :=
  perform (NavigationReplace route).

End Monad.

Declare Scope js_scope.
Delimit Scope js_scope with js.
Notation "'let!' x ':=' m 'in' k" := (bind m (fun x => k))
  (at level 10, x name, m at level 100, k at level 200) : js_scope.
Notation "m ';;;' k" := (bind m (fun _ => k))
  (at level 100, k at level 200, right associativity) : js_scope.

(** ** screens/LoginScreen.tsx *)

Module LoginScreen.

Inductive AuthMode : Type := login | register.   (* AUTH_MODES *)

Definition AuthMode_eqb (a b : AuthMode) : bool :=
  match a, b with
  | login, login | register, register => true
  | _, _ => false
  end.

Record Form : Type := {
  f_nim : string;
  f_nama : string;
  f_email : string;
  f_password : string;
}.

Definition initialFormState : Form :=
  {| f_nim := ""; f_nama := ""; f_email := ""; f_password := "" |}.

(** The object handed to [persistUser] and [setCurrentUser]. The login
    path builds it without a [password] property; the register path hands
    over the payload, which has one. *)
Record User : Type := {
  u_nim : string;
  u_nama : string;
  u_email : option string;
  u_password : option string;
}.

(** The [useState] cells of the component. *)
Record State : Type := {
  authMode : AuthMode;
  form : Form;
  currentUser : option User;
  loading : bool;
  hydrated : bool;
}.

Definition initialState : State :=
  {| authMode := login; form := initialFormState; currentUser := None;
     loading := false; hydrated := false |}.

(** How a submit ends. The source returns nothing; each constructor names
    one exit of [handleAuth], by the alert shown there. *)
Inductive AuthResult : Type :=
  | Success (user : User)              (* navigation.replace('Mahasiswa') *)
  | ValidationError (message : string) (* the message of validateForm *)
  | ConnectivityError                  (* 'Tidak bisa mengakses data. Periksa koneksi.' *)
  | ConnectivityRequiredError          (* 'Koneksi diperlukan untuk registrasi. Coba lagi.' *)
  | DuplicateIdentifierError           (* 'NIM sudah terdaftar.' *)
  | NotFoundError                      (* 'NIM belum terdaftar.' *)
  | InvalidCredentialError             (* 'Password salah.' *)
  | UnexpectedError                    (* 'Terjadi kesalahan. Coba lagi.' *)
  | Rejected (err : string).           (* the promise of handleAuth rejects *)

Definition normalizeNim (value : string) : string :=
  JS.toLowerCase (JS.trim value).

Definition trimValue (value : string) : string := JS.trim value.

(** [/.+@.+\..+/] *)
Definition emailRegex : list RegExp.item :=
  [RegExp.OneOrMore RegExp.AnyChar; RegExp.One (RegExp.Literal "@");
   RegExp.OneOrMore RegExp.AnyChar; RegExp.One (RegExp.Literal ".");
   RegExp.OneOrMore RegExp.AnyChar].

Definition setAuthMode (m : AuthMode) (st : State) : State :=
  {| authMode := m; form := form st; currentUser := currentUser st;
     loading := loading st; hydrated := hydrated st |}.

Definition setForm (f : Form) (st : State) : State :=
  {| authMode := authMode st; form := f; currentUser := currentUser st;
     loading := loading st; hydrated := hydrated st |}.

Definition setCurrentUser (u : option User) (st : State) : State :=
  {| authMode := authMode st; form := form st; currentUser := u;
     loading := loading st; hydrated := hydrated st |}.

Definition setLoading (b : bool) (st : State) : State :=
  {| authMode := authMode st; form := form st; currentUser := currentUser st;
     loading := b; hydrated := hydrated st |}.

Definition setHydrated (b : bool) (st : State) : State :=
  {| authMode := authMode st; form := form st; currentUser := currentUser st;
     loading := loading st; hydrated := b |}.

(** What the component shows: the spinner until the mount effect has
    found no session, then the form. *)
Inductive View : Type :=
  | Spinner
  | AuthForm (mode : AuthMode) (fields : Form).

Definition render (st : State) : View :=
  if negb (hydrated st) then Spinner else AuthForm (authMode st) (form st).

Inductive Field : Type := field_nim | field_nama | field_email | field_password.

(** [setForm(prev => ({...prev, [field]: value}))] *)
Definition updateField (field : Field) (value : string) (st : State) : State :=
  let prev := form st in
  setForm
    match field with
    | field_nim =>
        {| f_nim := value; f_nama := f_nama prev; f_email := f_email prev;
           f_password := f_password prev |}
    | field_nama =>
        {| f_nim := f_nim prev; f_nama := value; f_email := f_email prev;
           f_password := f_password prev |}
    | field_email =>
        {| f_nim := f_nim prev; f_nama := f_nama prev; f_email := value;
           f_password := f_password prev |}
    | field_password =>
        {| f_nim := f_nim prev; f_nama := f_nama prev; f_email := f_email prev;
           f_password := value |}
    end st.

Definition resetForm (st : State) : State := setForm initialFormState st.

Definition switchMode (targetMode : AuthMode) (st : State) : State :=
  if AuthMode_eqb (authMode st) targetMode then st
  else resetForm (setAuthMode targetMode st).

(** [validateForm]: the message to show, or [None] for [null]. *)
Definition validateForm (authMode : AuthMode) (form : Form) : option string :=
  let nim := trimValue (f_nim form) in
  let password := trimValue (f_password form) in
  if negb (JS.truthy nim) then Some "NIM wajib diisi."
  else if negb (JS.truthy password) then Some "Password wajib diisi."
  else if AuthMode_eqb authMode register then
    if negb (JS.truthy (trimValue (f_nama form))) then Some "Nama wajib diisi."
    else if negb (JS.truthy (trimValue (f_email form))) then Some "Email wajib diisi."
    else if negb (RegExp.test emailRegex (trimValue (f_email form)))
    then Some "Format email tidak valid."
    else None
  else None.

(** [buildUserPayload]; with [nimKey] it is the document [setDoc] writes. *)
Definition buildUserPayload (form : Form) : User :=
  {| u_nim := trimValue (f_nim form);
     u_nama := trimValue (f_nama form);
     u_email := Some (trimValue (f_email form));
     u_password := Some (f_password form) |}.

(** [{...payload, nimKey}] *)
Definition withNimKey (payload : User) (nimKey : string) : Doc :=
  {| d_nim := Some (u_nim payload);
     d_nama := Some (u_nama payload);
     d_email := u_email payload;
     d_password := u_password payload;
     d_nimKey := Some nimKey |}.

Section Handlers.
Context {R : Type}.
Local Open Scope js_scope.

(** The mount effect: read the session and either leave for the listing
    or let the form render. *)
Definition mountEffect : M State R unit :=
  let! nim := storage_getString STORAGE_KEYS_nim in
  let! nama := storage_getString STORAGE_KEYS_nama in
  let! email0 := storage_getString STORAGE_KEYS_email in
  let email := JS.nullish email0 "" in
  match nim, nama with
  | Some nim, Some nama =>
      if JS.truthy nim && JS.truthy nama then
        let user := {| u_nim := nim; u_nama := nama; u_email := Some email;
                       u_password := None |} in
        modifyState (setCurrentUser (Some user));;;
        navigation_replace Mahasiswa
      else modifyState (setHydrated true)
  | _, _ => modifyState (setHydrated true)
  end.

Definition persistUser (user : User) : M State R unit :=
  storage_set STORAGE_KEYS_nim (u_nim user);;;
  storage_set STORAGE_KEYS_nama (u_nama user);;;
  storage_set STORAGE_KEYS_email (JS.nullish (u_email user) "").

Definition clearPersistedUser (has_delete : bool) : M State R unit :=
  forEach STORAGE_KEYS_values (fun key => storage_delete_opt has_delete key).

Definition handleLocalLogout (has_delete : bool) : M State R unit :=
  clearPersistedUser has_delete;;;
  modifyState (setCurrentUser None);;;
  modifyState resetForm;;;
  modifyState (setAuthMode login).

End Handlers.

Definition snapshot_exists (snapshot : Snapshot) : bool :=
  match snap_data snapshot with
  | Some _ => true
  | None => false
  end.

(** [data.password !== form.password] *)
Definition password_differs (data : Doc) (password : string) : bool :=
  match d_password data with
  | Some p => negb (String.eqb p password)
  | None => true
  end.

Local Open Scope js_scope.

(** The point read: the server first, the cache when the server read
    throws. The result is the snapshot and [usedCache]; when both reads
    throw, the alert is shown and [handleAuth] returns. *)
Definition lookup (net : Network) (docRef : string)
  : M State AuthResult (Snapshot * bool) :=
  tryCatch
    (let! snapshot := getDocFromServer net docRef in
     ret (snapshot, false))
    (fun serverErr =>
       console_warn "Server fetch failed, fallback to cache:";;;
       tryCatch
         (let! snapshot := getDocFromCache net docRef in
          ret (snapshot, true))
         (fun cacheErr =>
            console_error "Cache fetch failed:";;;
            Alert_alert "Error" "Tidak bisa mengakses data. Periksa koneksi.";;;
            return_ ConnectivityError)).

(** The body of [handleAuth]. Every message of [validateForm] is a
    non-empty literal, so [if (validationMessage)] is the test for a
    message. *)
Definition handleAuth_body (net : Network) : M State AuthResult AuthResult :=
  let! st := getState in
  let authMode := authMode st in
  let form := form st in
  let validationMessage := validateForm authMode form in
  match validationMessage with
  | Some message =>
      Alert_alert "Error" message;;;
      return_ (ValidationError message)
  | None =>
      modifyState (setLoading true);;;
      let nimKey := normalizeNim (f_nim form) in
      let nimForDisplay := trimValue (f_nim form) in
      tryFinally
        (tryCatch
           (let! docRef := doc net nimKey in
            let! found := lookup net docRef in
            let snapshot := fst found in
            let usedCache := snd found in
            let docExists := snapshot_exists snapshot in
            console_log "Auth attempt";;;
            when (AuthMode_eqb authMode register && usedCache)
              (Alert_alert "Error" "Koneksi diperlukan untuk registrasi. Coba lagi.";;;
               return_ ConnectivityRequiredError);;;
            if AuthMode_eqb authMode register then
              when docExists
                (Alert_alert "Error" "NIM sudah terdaftar.";;;
                 return_ DuplicateIdentifierError);;;
              let payload := buildUserPayload form in
              setDoc net docRef (withNimKey payload nimKey);;;
              console_log "Register success";;;
              persistUser payload;;;
              modifyState (setCurrentUser (Some payload));;;
              modifyState resetForm;;;
              navigation_replace Mahasiswa;;;
              return_ (Success payload)
            else
              match snap_data snapshot with
              | None =>
                  Alert_alert "Error" "NIM belum terdaftar.";;;
                  return_ NotFoundError
              | Some data =>
                  when (password_differs data (f_password form))
                    (Alert_alert "Error" "Password salah.";;;
                     return_ InvalidCredentialError);;;
                  let user :=
                    {| u_nim := JS.nullish (d_nim data) nimForDisplay;
                       u_nama := JS.nullish (d_nama data) "Mahasiswa";
                       u_email := Some (JS.nullish (d_email data) "");
                       u_password := None |} in
                  persistUser user;;;
                  modifyState (setCurrentUser (Some user));;;
                  modifyState resetForm;;;
                  navigation_replace Mahasiswa;;;
                  ret (Success user)
              end)
           (fun error =>
              console_error "Auth error:";;;
              Alert_alert "Error" "Terjadi kesalahan. Coba lagi.";;;
              ret UnexpectedError))
        (modifyState (setLoading false))
  end.

(** One press of the submit button: how it ends, and the component and the
    world afterwards. *)
Definition handleAuth (net : Network) (s : State * World)
  : AuthResult * (State * World) :=
  match handleAuth_body net s with
  | (Normal r, s') => (r, s')
  | (Return r, s') => (r, s')
  | (Throw e, s') => (Rejected e, s')
  end.

End LoginScreen.

(** ** screens/MahasiswaScreen.tsx *)

Module MahasiswaScreen.

Record Mahasiswa : Type := {
  nim : string;
  nama : string;
  email : string;
}.

(** The [useState] cells of the component. *)
Record State : Type := {
  data : list Mahasiswa;
  loading : bool;
}.

Definition initialState : State := {| data := []; loading := true |}.

Definition setData (list : list Mahasiswa) (st : State) : State :=
  {| data := list; loading := loading st |}.

Definition setLoading (b : bool) (st : State) : State :=
  {| data := data st; loading := b |}.

(** What the component shows: the spinner while loading, then the list,
    with [ListEmptyComponent] for an empty one. An error view does not
    exist. *)
Inductive View : Type :=
  | Spinner
  | EmptyText (message : string)
  | Cards (items : list Mahasiswa).

Definition render (st : State) : View :=
  if loading st then Spinner
  else
    match data st with
    | [] => EmptyText "Belum ada data mahasiswa."
    | items => Cards items
    end.

Definition toMahasiswa (docSnap : QueryDocSnapshot) : Mahasiswa :=
  let d := q_data docSnap in
  {| nim := JS.nullish (d_nim d) (q_id docSnap);
     nama := JS.nullish (d_nama d) "Mahasiswa";
     email := JS.nullish (d_email d) "" |}.

Section Handlers.
Context {R : Type}.
Local Open Scope js_scope.

Definition handleLogout : M State R unit :=
  forEach STORAGE_KEYS_values (fun key => storage_set key "");;;
  navigation_replace Login.

(** [scan] is what [getDocs] answers: [None] when it rejects. *)
Definition fetchData (scan : option (list QueryDocSnapshot)) : M State R unit :=
  tryFinally
    (tryCatch
       (let! snap := getDocs scan in
        let list := map toMahasiswa snap in
        modifyState (setData list))
       (fun err => console_error "Failed to fetch mahasiswa"))
    (modifyState (setLoading false)).

End Handlers.

(** What [renderItem] puts on a card: the title and the values of the
    [NIM] and [Email] rows. *)
Record Card : Type := {
  cardTitle : string;
  nimValue : string;
  emailValue : string;
}.

(** [renderItem]; the email row shows [item.email || '-']. *)
Definition renderItem (item : Mahasiswa) : Card :=
  {| cardTitle := nama item;
     nimValue := nim item;
     emailValue := if JS.truthy (email item) then email item else "-" |}.

(** [keyExtractor={item => item.nim}] *)
Definition keyExtractor (item : Mahasiswa) : string := nim item.

End MahasiswaScreen.

(** ** The application: what the user and the router can do *)

Module App.

Record State : Type := {
  loginScreen : LoginScreen.State;
  mahasiswaScreen : MahasiswaScreen.State;
  world : World;
}.

Inductive Action : Type :=
  | MountLogin                       (* the router shows the Login screen *)
  | UpdateField (field : LoginScreen.Field) (value : string)
  | SwitchMode (targetMode : LoginScreen.AuthMode)
  | Submit (net : Network)           (* MASUK / DAFTAR *)
  | LocalLogout (has_delete : bool)  (* HAPUS AKUN LOKAL *)
  | MountMahasiswa (scan : option (list QueryDocSnapshot))
  | Logout.                          (* LOGOUT *)

(** A fresh installation: nothing in MMKV; the collection holds whatever
    the server holds. *)
Definition init (collection : gmap string Doc) : State :=
  {| loginScreen := LoginScreen.initialState;
     mahasiswaScreen := MahasiswaScreen.initialState;
     world := {| storage := ∅; mahasiswaCollection := collection; effects := [] |} |}.

Definition onLogin (m : M LoginScreen.State unit unit) (s : State) : State :=
  let r := snd (m (loginScreen s, world s)) in
  {| loginScreen := fst r; mahasiswaScreen := mahasiswaScreen s; world := snd r |}.

Definition onMahasiswa (m : M MahasiswaScreen.State unit unit) (s : State) : State :=
  let r := snd (m (mahasiswaScreen s, world s)) in
  {| loginScreen := loginScreen s; mahasiswaScreen := fst r; world := snd r |}.

Definition step (a : Action) (s : State) : State :=
  match a with
  | MountLogin =>
      onLogin LoginScreen.mountEffect
        {| loginScreen := LoginScreen.initialState;
           mahasiswaScreen := mahasiswaScreen s; world := world s |}
  | UpdateField field value =>
      {| loginScreen := LoginScreen.updateField field value (loginScreen s);
         mahasiswaScreen := mahasiswaScreen s; world := world s |}
  | SwitchMode targetMode =>
      {| loginScreen := LoginScreen.switchMode targetMode (loginScreen s);
         mahasiswaScreen := mahasiswaScreen s; world := world s |}
  | Submit net =>
      let r := snd (LoginScreen.handleAuth net (loginScreen s, world s)) in
      {| loginScreen := fst r; mahasiswaScreen := mahasiswaScreen s;
         world := snd r |}
  | LocalLogout has_delete =>
      onLogin (LoginScreen.handleLocalLogout has_delete) s
  | MountMahasiswa scan =>
      onMahasiswa (MahasiswaScreen.fetchData scan)
        {| loginScreen := loginScreen s;
           mahasiswaScreen := MahasiswaScreen.initialState; world := world s |}
  | Logout => onMahasiswa MahasiswaScreen.handleLogout s
  end.

(** The actions are taken from left to right. *)
Definition run (actions : list Action) (s : State) : State :=
  fold_left (fun s a => step a s) actions s.

End App.

(** ** The vocabulary of the specification *)

(** Two raw identifiers differ only in surrounding white space and in
    letter case: each is a core between white-space paddings, and the two
    cores agree once lowered. *)
Definition differOnlyInPaddingAndCase (a b : string) : Prop :=
  exists l1 c1 r1 l2 c2 r2,
    a = l1 ++ c1 ++ r1 /\ b = l2 ++ c2 ++ r2 /\
    JS.allWhiteSpace l1 = true /\ JS.allWhiteSpace r1 = true /\
    JS.allWhiteSpace l2 = true /\ JS.allWhiteSpace r2 = true /\
    JS.toLowerCase c1 = JS.toLowerCase c2.

(** The minimal email pattern [<non-empty>@<non-empty>.<non-empty>]. *)
Definition minimalEmailPattern (s : string) : Prop :=
  exists a b c,
    a <> "" /\ b <> "" /\ c <> "" /\ s = a ++ "@" ++ b ++ "." ++ c.

(** The session record is the three keys of the local store, read by
    their values: a field is absent when its key is missing or holds the
    empty string, which is how logout clears it and how the bootstrap
    reads it, and present when its key holds a non-empty string. *)
Definition valueAt (st : gmap string string) (key : string) : string :=
  JS.nullish (st !! key) "".

Definition sessionEmpty (st : gmap string string) : Prop :=
  Forall (fun key => JS.truthy (valueAt st key) = false) STORAGE_KEYS_values.

Definition sessionFilled (st : gmap string string) : Prop :=
  Forall (fun key => JS.truthy (valueAt st key) = true) STORAGE_KEYS_values.

(** A document with a non-empty identifier, name and email, as registration
    writes it. *)
Definition completeDoc (d : Doc) : bool :=
  JS.truthy (JS.nullish (d_nim d) "") &&
  JS.truthy (JS.nullish (d_nama d) "") &&
  JS.truthy (JS.nullish (d_email d) "").

(** A submit whose cache, if it answers with a document, answers with a
    complete one. *)
Definition completeCache (net : Network) : bool :=
  match cache_answer net with
  | Some (Some d) => completeDoc d
  | _ => true
  end.

Definition completeAction (a : App.Action) : bool :=
  match a with
  | App.Submit net => completeCache net
  | _ => true
  end.

(** A remote operation: a read, a write or a scan of the collection. *)
Definition isRemote (e : Effect) : bool :=
  match e with
  | GetDocFromServer _ _ | GetDocFromCache _ _ | SetDoc _ _ _ | GetDocs _ => true
  | _ => false
  end.

Definition isRemoteWrite (e : Effect) : bool :=
  match e with
  | SetDoc _ _ _ => true
  | _ => false
  end.

Definition isLocalWrite (e : Effect) : bool :=
  match e with
  | StorageSet _ _ | StorageDelete _ => true
  | _ => false
  end.

Definition isNavigation (e : Effect) : bool :=
  match e with
  | NavigationReplace _ => true
  | _ => false
  end.

Definition isAlert (e : Effect) : bool :=
  match e with
  | Alert _ _ => true
  | _ => false
  end.

(** In the log [es], every effect satisfying [p] comes before every effect
    satisfying [q]. *)
Definition allBefore (p q : Effect -> bool) (es : list Effect) : Prop :=
  forall (i j : nat) (a b : Effect),
    es !! i = Some a -> es !! j = Some b ->
    p a = true -> q b = true -> i < j.

(** The three checks a log is asked for: is every [p] before every [q]? *)
Fixpoint precedes (p q : Effect -> bool) (es : list Effect) : bool :=
  match es with
  | [] => true
  | e :: es' =>
      (negb (q e) || forallb (fun x => negb (p x)) es) && precedes p q es'
  end.

(** The world [w] with the effects [es] appended to its log and both
    stores as they were. *)
Definition logged (w : World) (es : list Effect) : World :=
  {| storage := storage w;
     mahasiswaCollection := mahasiswaCollection w;
     effects := effects w ++ es |}.

(** What was logged between the world [w] and the later world [w']. *)
Definition emitted (w w' : World) : list Effect :=
  drop (length (effects w)) (effects w').

(** An effect passes unless it writes to the local store under a key that
    is not one of the three session keys. *)
Definition sessionKeysOnly (e : Effect) : bool :=
  match e with
  | StorageSet key _ | StorageDelete key =>
      bool_decide (key ∈ STORAGE_KEYS_values)
  | _ => true
  end.

(** ** What a submit does, exit by exit *)

(** What the point read of [LoginScreen.lookup] logs and yields: the
    snapshot with [usedCache], or nothing when both reads throw. *)
Definition pointRead (net : Network) (w : World) (key : string)
  : list Effect * option (Snapshot * bool) :=
  if server_reachable net then
    let snap := {| snap_id := key; snap_data := mahasiswaCollection w !! key |} in
    ([GetDocFromServer key (Some snap)], Some (snap, false))
  else
    match cache_answer net with
    | Some d =>
        let snap := {| snap_id := key; snap_data := d |} in
        ([GetDocFromServer key None;
          Console WarnLevel "Server fetch failed, fallback to cache:";
          GetDocFromCache key (Some snap)],
         Some (snap, true))
    | None =>
        ([GetDocFromServer key None;
          Console WarnLevel "Server fetch failed, fallback to cache:";
          GetDocFromCache key None;
          Console ErrorLevel "Cache fetch failed:";
          Alert "Error" "Tidak bisa mengakses data. Periksa koneksi."],
         None)
    end.

(** The point read resolves to [data]: the reference is made, and the
    server answers with what the collection holds, or the server read
    fails and the cache answers. *)
Definition readResolvesTo (net : Network) (w : World) (key : string)
    (data : option Doc) : Prop :=
  reference_accepted net = true /\
  ((server_reachable net = true /\ mahasiswaCollection w !! key = data) \/
   (server_reachable net = false /\ cache_answer net = Some data)).

(** The point read is answered by the server: the reference is made and
    the server read succeeds. *)
Definition serverAnswers (net : Network) : Prop :=
  reference_accepted net = true /\ server_reachable net = true.

(** What [persistUser] leaves in the local store. *)
Definition persisted (user : LoginScreen.User) (st : gmap string string)
  : gmap string string :=
  <[STORAGE_KEYS_email := JS.nullish (LoginScreen.u_email user) ""]>
    (<[STORAGE_KEYS_nama := LoginScreen.u_nama user]>
       (<[STORAGE_KEYS_nim := LoginScreen.u_nim user]> st)).

Definition persistEffects (user : LoginScreen.User) : list Effect :=
  [StorageSet STORAGE_KEYS_nim (LoginScreen.u_nim user);
   StorageSet STORAGE_KEYS_nama (LoginScreen.u_nama user);
   StorageSet STORAGE_KEYS_email (JS.nullish (LoginScreen.u_email user) "")].

(** The user object the login path builds from the stored document. *)
Definition userOfDoc (data : Doc) (nimForDisplay : string) : LoginScreen.User :=
  {| LoginScreen.u_nim := JS.nullish (d_nim data) nimForDisplay;
     LoginScreen.u_nama := JS.nullish (d_nama data) "Mahasiswa";
     LoginScreen.u_email := Some (JS.nullish (d_email data) "");
     LoginScreen.u_password := None |}.

Section Submits.
Import LoginScreen.
Variables (net : Network) (st : State) (w : World).

Let key := normalizeNim (f_nim (form st)).
Let payload := buildUserPayload (form st).
Let idle := setLoading false (setLoading true st).
Let attempt := Console LogLevel "Auth attempt".

Definition signedIn (user : User) : State :=
  setLoading false
    (resetForm (setCurrentUser (Some user) (setLoading true st))).

(** The exits of [handleAuth], each with its result, the component
    afterwards and the world afterwards. *)
Inductive submits : AuthResult -> State -> World -> Prop :=
  | submits_invalid message :
      validateForm (authMode st) (form st) = Some message ->
      submits (ValidationError message) st (logged w [Alert "Error" message])
  | submits_bad_reference :
      validateForm (authMode st) (form st) = None ->
      reference_accepted net = false ->
      submits UnexpectedError idle
        (logged w [Console ErrorLevel "Auth error:";
                   Alert "Error" "Terjadi kesalahan. Coba lagi."])
  | submits_offline es :
      validateForm (authMode st) (form st) = None ->
      reference_accepted net = true ->
      pointRead net w key = (es, None) ->
      submits ConnectivityError idle (logged w es)
  | submits_register_cached es snap :
      validateForm (authMode st) (form st) = None ->
      reference_accepted net = true ->
      authMode st = register ->
      pointRead net w key = (es, Some (snap, true)) ->
      submits ConnectivityRequiredError idle
        (logged w
           (es ++ [attempt;
                   Alert "Error" "Koneksi diperlukan untuk registrasi. Coba lagi."]))
  | submits_register_duplicate es snap data :
      validateForm (authMode st) (form st) = None ->
      reference_accepted net = true ->
      authMode st = register ->
      pointRead net w key = (es, Some (snap, false)) ->
      snap_data snap = Some data ->
      submits DuplicateIdentifierError idle
        (logged w (es ++ [attempt; Alert "Error" "NIM sudah terdaftar."]))
  | submits_register_refused es snap :
      validateForm (authMode st) (form st) = None ->
      reference_accepted net = true ->
      authMode st = register ->
      pointRead net w key = (es, Some (snap, false)) ->
      snap_data snap = None ->
      write_accepted net = false ->
      submits UnexpectedError idle
        (logged w
           (es ++ [attempt;
                   SetDoc key (withNimKey payload key) false;
                   Console ErrorLevel "Auth error:";
                   Alert "Error" "Terjadi kesalahan. Coba lagi."]))
  | submits_register_success es snap :
      validateForm (authMode st) (form st) = None ->
      reference_accepted net = true ->
      authMode st = register ->
      pointRead net w key = (es, Some (snap, false)) ->
      snap_data snap = None ->
      write_accepted net = true ->
      submits (Success payload) (signedIn payload)
        {| storage := persisted payload (storage w);
           mahasiswaCollection :=
             <[key := withNimKey payload key]> (mahasiswaCollection w);
           effects :=
             effects w ++
             es ++ [attempt;
                    SetDoc key (withNimKey payload key) true;
                    Console LogLevel "Register success"] ++
             persistEffects payload ++ [NavigationReplace Mahasiswa] |}
  | submits_login_missing es snap usedCache :
      validateForm (authMode st) (form st) = None ->
      reference_accepted net = true ->
      authMode st = login ->
      pointRead net w key = (es, Some (snap, usedCache)) ->
      snap_data snap = None ->
      submits NotFoundError idle
        (logged w (es ++ [attempt; Alert "Error" "NIM belum terdaftar."]))
  | submits_login_mismatch es snap usedCache data :
      validateForm (authMode st) (form st) = None ->
      reference_accepted net = true ->
      authMode st = login ->
      pointRead net w key = (es, Some (snap, usedCache)) ->
      snap_data snap = Some data ->
      password_differs data (f_password (form st)) = true ->
      submits InvalidCredentialError idle
        (logged w (es ++ [attempt; Alert "Error" "Password salah."]))
  | submits_login_success es snap usedCache data :
      validateForm (authMode st) (form st) = None ->
      reference_accepted net = true ->
      authMode st = login ->
      pointRead net w key = (es, Some (snap, usedCache)) ->
      snap_data snap = Some data ->
      password_differs data (f_password (form st)) = false ->
      let user := userOfDoc data (trimValue (f_nim (form st))) in
      submits (Success user) (signedIn user)
        {| storage := persisted user (storage w);
           mahasiswaCollection := mahasiswaCollection w;
           effects :=
             effects w ++
             es ++ [attempt] ++
             persistEffects user ++ [NavigationReplace Mahasiswa] |}.

End Submits.

(** ** The scenarios of the specification, as data *)

Module Scenario.
Import LoginScreen.

Definition online : Network :=
  {| reference_accepted := true; server_reachable := true;
     cache_answer := None; write_accepted := true |}.

(** The server read fails and the cache answers with [cached]. *)
Definition fromCache (cached : option Doc) : Network :=
  {| reference_accepted := true; server_reachable := false;
     cache_answer := Some cached; write_accepted := true |}.

Definition emptyWorld : World :=
  {| storage := ∅; mahasiswaCollection := ∅; effects := [] |}.

Definition jane : Form :=
  {| f_nim := "A100"; f_nama := "Jane Doe"; f_email := "jane@x.edu";
     f_password := "pw1" |}.

Definition janePadded : Form :=
  {| f_nim := " A100 "; f_nama := "Jane Doe"; f_email := "jane@x.edu";
     f_password := "pw1" |}.

Definition janeLower : Form :=
  {| f_nim := "a100"; f_nama := "Jane Doe"; f_email := "jane@x.edu";
     f_password := "pw1" |}.

Definition janeLowerNoName : Form :=
  {| f_nim := "a100"; f_nama := ""; f_email := "jane@x.edu";
     f_password := "pw1" |}.

Definition janeWrong : Form :=
  {| f_nim := "a100"; f_nama := ""; f_email := ""; f_password := "wrong" |}.

Definition janeBlank : Form :=
  {| f_nim := "a100"; f_nama := ""; f_email := ""; f_password := " " |}.


Definition janeTrimmed : Form :=
  {| f_nim := "A100"; f_nama := ""; f_email := ""; f_password := "pw1" |}.

Definition notAnEmail : Form :=
  {| f_nim := "A100"; f_nama := "Jane Doe"; f_email := "not-an-email";
     f_password := "pw1" |}.

Definition janeDoc : Doc :=
  {| d_nim := Some "A100"; d_nama := Some "Jane Doe";
     d_email := Some "jane@x.edu"; d_password := Some "pw1";
     d_nimKey := Some "a100" |}.

(** The form filled in, in register mode and in login mode. *)
Definition registering (f : Form) : State :=
  setForm f (setAuthMode register initialState).

Definition loggingIn (f : Form) : State := setForm f initialState.

(** The world once Jane is registered on the server, with no session on
    this device. *)
Definition janeRegistered : World :=
  {| storage := ∅; mahasiswaCollection := {[ "a100" := janeDoc ]};
     effects := [] |}.

End Scenario.

(** ** Further vocabulary, for the properties beyond the specification *)

(** How many effects of the log satisfy [p]. *)
Definition countIf (p : Effect -> bool) (es : list Effect) : nat :=
  length (List.filter p es).

(** No code unit of the string is a line terminator. *)
Fixpoint noLineTerminator (s : string) : bool :=
  match s with
  | EmptyString => true
  | String c s' => negb (JS.isLineTerminator c) && noLineTerminator s'
  end.

(** No code unit of the string is an upper-case letter. *)
Fixpoint noUpper (s : string) : bool :=
  match s with
  | EmptyString => true
  | String c s' => negb (JS.isUpper c) && noUpper s'
  end.

(** Every document carries an identifier that normalizes to its key, as
    the documents that registration writes do. *)
Definition keyedByNim (collection : gmap string Doc) : Prop :=
  map_Forall
    (fun key d => exists n, d_nim d = Some n /\ LoginScreen.normalizeNim n = key)
    collection.

(** [docs] is a scan of the collection: documents of the collection, each
    at most once. *)
Definition scanOf (collection : gmap string Doc) (docs : list QueryDocSnapshot)
  : Prop :=
  NoDup (map q_id docs) /\
  Forall (fun q => collection !! q_id q = Some (q_data q)) docs.

(** The stores of the two worlds agree. *)
Definition sameStores (w w' : World) : Prop :=
  storage w' = storage w /\ mahasiswaCollection w' = mahasiswaCollection w.

Module Situation.
Import LoginScreen.

(** Neither the server nor the cache answers. *)
Definition offline : Network :=
  {| reference_accepted := true; server_reachable := false;
     cache_answer := None; write_accepted := true |}.

(** The server answers reads and refuses the write. *)
Definition readOnly : Network :=
  {| reference_accepted := true; server_reachable := true;
     cache_answer := None; write_accepted := false |}.

Definition janeUpper : Form :=
  {| f_nim := "  A100"; f_nama := ""; f_email := ""; f_password := "pw1" |}.

Definition janeSnapshot : QueryDocSnapshot :=
  {| q_id := "a100"; q_data := Scenario.janeDoc |}.

(** A store that another part of the application uses as well. *)
Definition themedWorld : World :=
  {| storage := {[ "theme" := "dark" ]}; mahasiswaCollection := ∅;
     effects := [] |}.

Definition started (w : World) : App.State :=
  {| App.loginScreen := initialState;
     App.mahasiswaScreen := MahasiswaScreen.initialState;
     App.world := w |}.



Definition budiDoc : Doc :=
  {| d_nim := Some "B200"; d_nama := Some "Budi"; d_email := Some "budi@x.edu";
     d_password := Some "pw2"; d_nimKey := Some "b200" |}.

Definition budiSnapshot : QueryDocSnapshot :=
  {| q_id := "b200"; q_data := budiDoc |}.

(** Register Jane, open the listing, log out, come back to the form. *)
Definition janeSession : list App.Action :=
  [App.MountLogin; App.SwitchMode register;
   App.UpdateField field_nim "A100"; App.UpdateField field_nama "Jane Doe";
   App.UpdateField field_email "jane@x.edu";
   App.UpdateField field_password "pw1";
   App.Submit Scenario.online; App.MountMahasiswa (Some [janeSnapshot]);
   App.Logout; App.MountLogin].

(** After Jane's session, register Budi as well. *)
Definition twoRegistrations : list App.Action :=
  (janeSession ++
   [App.SwitchMode register;
    App.UpdateField field_nim " B200"; App.UpdateField field_nama "Budi";
    App.UpdateField field_email "budi@x.edu";
    App.UpdateField field_password "pw2";
    App.Submit Scenario.online])%list.

End Situation.

(** * Facts about strings *)

Section StringFacts.
Import JS.

Lemma append_nil_l s : "" ++ s = s.
Proof. reflexivity. Qed.

Lemma append_cons c s t : String c s ++ t = String c (s ++ t).
Proof. reflexivity. Qed.

Lemma append_nil_r s : s ++ "" = s.
Proof. induction s as [|c s IH]; [reflexivity|]. now rewrite append_cons, IH. Qed.

Lemma append_assoc s t u : (s ++ t) ++ u = s ++ t ++ u.
Proof.
  induction s as [|c s IH]; [reflexivity|].
  now rewrite !append_cons, IH.
Qed.

Lemma append_eq_nil s t : s ++ t = "" -> s = "" /\ t = "".
Proof. destruct s; [now rewrite append_nil_l | rewrite append_cons; discriminate]. Qed.

Lemma trimStart_allWhiteSpace s : allWhiteSpace s = true -> trimStart s = "".
Proof.
  induction s as [|c s IH]; simpl; [reflexivity|].
  intros [Hc Hs]%andb_true_iff. rewrite Hc. auto.
Qed.

Lemma trimEnd_allWhiteSpace s : allWhiteSpace s = true -> trimEnd s = "".
Proof.
  induction s as [|c s IH]; simpl; [reflexivity|].
  intros [Hc Hs]%andb_true_iff. rewrite (IH Hs), Hc. reflexivity.
Qed.

Lemma trimEnd_nil_allWhiteSpace s : trimEnd s = "" -> allWhiteSpace s = true.
Proof.
  induction s as [|c s IH]; simpl; [reflexivity|].
  destruct (trimEnd s) eqn:E; [|discriminate].
  destruct (isWhiteSpace c); [auto | discriminate].
Qed.

Lemma trimStart_app s r :
  trimStart (s ++ r) = if allWhiteSpace s then trimStart r else trimStart s ++ r.
Proof.
  induction s as [|c s IH]; [reflexivity|].
  rewrite append_cons. simpl. destruct (isWhiteSpace c); simpl; [exact IH | reflexivity].
Qed.

Lemma trimEnd_app_allWhiteSpace s r :
  allWhiteSpace r = true -> trimEnd (s ++ r) = trimEnd s.
Proof.
  intros Hr. induction s as [|c s IH].
  - rewrite append_nil_l. now apply trimEnd_allWhiteSpace.
  - rewrite append_cons. simpl. now rewrite IH.
Qed.

(** White-space padding does not survive [trim]. *)
Lemma trim_padding l c r :
  allWhiteSpace l = true -> allWhiteSpace r = true ->
  trim (l ++ c ++ r) = trim c.
Proof.
  intros Hl Hr. unfold trim. rewrite trimStart_app, Hl, trimStart_app.
  destruct (allWhiteSpace c) eqn:Hc.
  - rewrite (trimStart_allWhiteSpace r Hr), (trimStart_allWhiteSpace c Hc).
    reflexivity.
  - now apply trimEnd_app_allWhiteSpace.
Qed.

Lemma isWhiteSpace_toLowerChar c : isWhiteSpace (toLowerChar c) = isWhiteSpace c.
Proof. destruct c as [[] [] [] [] [] [] [] []]; reflexivity. Qed.

Lemma toLowerCase_trimStart s : toLowerCase (trimStart s) = trimStart (toLowerCase s).
Proof.
  induction s as [|c s IH]; simpl; [reflexivity|].
  rewrite isWhiteSpace_toLowerChar. destruct (isWhiteSpace c); [exact IH | reflexivity].
Qed.

Lemma toLowerCase_trimEnd s : toLowerCase (trimEnd s) = trimEnd (toLowerCase s).
Proof.
  induction s as [|c s IH]; simpl; [reflexivity|].
  rewrite <- IH, isWhiteSpace_toLowerChar.
  destruct (trimEnd s); simpl; [destruct (isWhiteSpace c)|]; reflexivity.
Qed.

Lemma toLowerCase_trim s : toLowerCase (trim s) = trim (toLowerCase s).
Proof. unfold trim. now rewrite toLowerCase_trimEnd, toLowerCase_trimStart. Qed.

Lemma toLowerChar_idempotent c : toLowerChar (toLowerChar c) = toLowerChar c.
Proof. destruct c as [[] [] [] [] [] [] [] []]; reflexivity. Qed.

Lemma toLowerCase_idempotent s : toLowerCase (toLowerCase s) = toLowerCase s.
Proof.
  induction s as [|c s IH]; simpl; [reflexivity|].
  now rewrite toLowerChar_idempotent, IH.
Qed.

(** A string is its trimmed form between two white-space paddings. *)
Lemma trimStart_split s :
  exists l, allWhiteSpace l = true /\ s = l ++ trimStart s.
Proof.
  induction s as [|c s [l [Hl Hs]]]; [now exists ""|].
  simpl. destruct (isWhiteSpace c) eqn:Hc.
  - exists (String c l). simpl. rewrite Hc, Hl, append_cons, <- Hs. auto.
  - now exists "".
Qed.

Lemma trimEnd_split s :
  exists r, allWhiteSpace r = true /\ s = trimEnd s ++ r.
Proof.
  induction s as [|c s [r [Hr Hs]]]; [now exists ""|].
  simpl. destruct (trimEnd s) eqn:E.
  - rewrite append_nil_l in Hs. subst r. destruct (isWhiteSpace c) eqn:Hc.
    + exists (String c s). simpl. now rewrite Hc, Hr.
    + exists s. now rewrite !append_cons, append_nil_l.
  - exists r. split; [exact Hr|]. now rewrite append_cons, <- Hs.
Qed.

Lemma trim_split s :
  exists l r, allWhiteSpace l = true /\ allWhiteSpace r = true /\
              s = l ++ trim s ++ r.
Proof.
  destruct (trimStart_split s) as [l [Hl Hs]].
  destruct (trimEnd_split (trimStart s)) as [r [Hr Ht]].
  exists l, r. unfold trim. now rewrite <- Ht, <- Hs.
Qed.

Lemma leadingWhiteSpace_trimStart s : leadingWhiteSpace (trimStart s) = false.
Proof.
  induction s as [|c s IH]; simpl; [reflexivity|].
  destruct (isWhiteSpace c) eqn:Hc; [exact IH | simpl; exact Hc].
Qed.

Lemma leadingWhiteSpace_trimEnd s :
  leadingWhiteSpace s = false -> leadingWhiteSpace (trimEnd s) = false.
Proof.
  destruct s as [|c s]; simpl; [reflexivity|]. intros Hc.
  destruct (trimEnd s); simpl; rewrite ?Hc; simpl; auto.
Qed.

Lemma trailingWhiteSpace_trimEnd s : trailingWhiteSpace (trimEnd s) = false.
Proof.
  induction s as [|c s IH]; simpl; [reflexivity|].
  destruct (trimEnd s) as [|d t] eqn:E.
  - destruct (isWhiteSpace c) eqn:Hc; simpl; [reflexivity | exact Hc].
  - exact IH.
Qed.


Lemma truthy_false s : truthy s = false <-> s = "".
Proof. destruct s; simpl; split; congruence. Qed.

Lemma truthy_true s : truthy s = true <-> s <> "".
Proof. destruct s; simpl; split; congruence. Qed.

Lemma trim_nil_allWhiteSpace s : trim s = "" <-> allWhiteSpace s = true.
Proof.
  split.
  - intros E. destruct (trim_split s) as [l [r [Hl [Hr Hs]]]].
    rewrite E, append_nil_l in Hs. rewrite Hs. clear -Hl Hr.
    induction l as [|c l IH]; [exact Hr|].
    simpl in Hl. apply andb_true_iff in Hl as [Hc Hl].
    rewrite append_cons. simpl. rewrite Hc. auto.
  - intros H. unfold trim. now rewrite trimStart_allWhiteSpace.
Qed.

Lemma trimStart_id s : leadingWhiteSpace s = false -> trimStart s = s.
Proof. destruct s as [|c s]; simpl; [reflexivity|]. now intros ->. Qed.

Lemma trimEnd_id s : trailingWhiteSpace s = false -> trimEnd s = s.
Proof.
  induction s as [|c s IH]; [reflexivity|].
  destruct s as [|d s].
  - simpl. now intros ->.
  - intros H. change (trailingWhiteSpace (String d s) = false) in H.
    cbn [trimEnd] in *. rewrite (IH H). reflexivity.
Qed.

(** [trim] is idempotent, and so is the normalization of identifiers. *)
Lemma trim_idempotent s : trim (trim s) = trim s.
Proof.
  unfold trim at 1.
  rewrite trimStart_id.
  - apply trimEnd_id. apply trailingWhiteSpace_trimEnd.
  - apply leadingWhiteSpace_trimEnd, leadingWhiteSpace_trimStart.
Qed.

End StringFacts.

(** * Facts about the regular-expression matcher *)

Section RegExpFacts.
Import RegExp.

Lemma all_match_nonempty a s : all_match a s -> s <> "".
Proof. destruct 1; discriminate. Qed.

Lemma match_here_plus_eq a re c s :
  match_here (OneOrMore a :: re) (String c s) =
  atom_matches a c && (match_here (OneOrMore a :: re) s || match_here re s).
Proof. reflexivity. Qed.

(** A successful prefix match splits the string into a word the pattern
    denotes and a remainder. *)
Lemma match_here_sound re :
  forall s, match_here re s = true ->
  exists w rest, s = w ++ rest /\ denotes re w.
Proof.
  induction re as [|[a|a] re IH]; intros s H.
  - exists "", s. split; [reflexivity | constructor].
  - destruct s as [|c s]; [discriminate|]. simpl in H.
    apply andb_true_iff in H as [Ha H].
    destruct (IH _ H) as [w [rest [-> Hw]]].
    exists (String c w), rest. split; [reflexivity | now constructor].
  - induction s as [|c s IHs]; [discriminate|].
    rewrite match_here_plus_eq in H.
    apply andb_true_iff in H as [Ha H].
    apply orb_true_iff in H as [H|H].
    + destruct (IHs H) as [w [rest [-> Hw]]].
      inversion Hw as [| |a' re' s1 s2 H1 H2]; subst.
      exists (String c s1 ++ s2), rest. split.
      * now rewrite !append_cons.
      * constructor; [now apply all_match_more | exact H2].
    + destruct (IH _ H) as [w [rest [-> Hw]]].
      exists (String c "" ++ w), rest. split; [reflexivity|].
      constructor; [now apply all_match_one | exact Hw].
Qed.

Lemma match_here_complete re w :
  denotes re w -> forall rest, match_here re (w ++ rest) = true.
Proof.
  induction 1 as [|a c re s Ha Hs IH|a re s1 s2 H1 H2 IH]; intros rest.
  - reflexivity.
  - rewrite append_cons. simpl. now rewrite Ha, IH.
  - rewrite append_assoc.
    induction H1 as [c Hc|c s Hc Hs IHs].
    + rewrite append_cons, append_nil_l, match_here_plus_eq, Hc, IH.
      now rewrite orb_true_r.
    + rewrite append_cons, match_here_plus_eq, Hc, IHs. reflexivity.
Qed.

Lemma match_here_test re s : match_here re s = true -> test re s = true.
Proof. intros H. destruct s; simpl; now rewrite H. Qed.

(** [test] succeeds exactly when some substring is denoted. *)
Lemma test_spec re s :
  test re s = true <->
  exists pre w post, s = pre ++ w ++ post /\ denotes re w.
Proof.
  split.
  - induction s as [|c s IH]; simpl; intros H.
    + rewrite orb_false_r in H.
      destruct (match_here_sound _ _ H) as [w [rest [E Hw]]].
      exists "", w, rest. now rewrite append_nil_l.
    + apply orb_true_iff in H as [H|H].
      * destruct (match_here_sound _ _ H) as [w [rest [E Hw]]].
        exists "", w, rest. now rewrite append_nil_l.
      * destruct (IH H) as [pre [w [post [-> Hw]]]].
        exists (String c pre), w, post. now rewrite append_cons.
  - intros [pre [w [post [-> Hw]]]].
    induction pre as [|c pre IH].
    + rewrite append_nil_l. apply match_here_test.
      now apply match_here_complete.
    + rewrite append_cons. simpl. rewrite IH. apply orb_true_r.
Qed.

(** What [/.+@.+\..+/] denotes. *)
Lemma emailRegex_denotes w :
  denotes LoginScreen.emailRegex w ->
  exists x y z, x <> "" /\ y <> "" /\ z <> "" /\ w = x ++ "@" ++ y ++ "." ++ z.
Proof.
  unfold LoginScreen.emailRegex. intros H.
  inversion H as [| |? ? x w1 Hx H1]; subst; clear H.
  inversion H1 as [|? c1 ? w2 Hc1 H2|]; subst; clear H1.
  inversion H2 as [| |? ? y w3 Hy H3]; subst; clear H2.
  inversion H3 as [|? c2 ? w4 Hc2 H4|]; subst; clear H3.
  inversion H4 as [| |? ? z w5 Hz H5]; subst; clear H4.
  inversion H5; subst; clear H5.
  simpl in Hc1, Hc2.
  apply Ascii.eqb_eq in Hc1, Hc2. subst c1 c2.
  exists x, y, z. rewrite append_nil_r.
  repeat split; eauto using all_match_nonempty.
Qed.

(** The check of [validateForm] accepts only emails of the minimal
    pattern, trimmed or not. *)
Lemma emailRegex_test_trim s :
  test LoginScreen.emailRegex (JS.trim s) = true -> minimalEmailPattern s.
Proof.
  intros H. apply test_spec in H as [pre [w [post [E Hw]]]].
  apply emailRegex_denotes in Hw as [x [y [z [Hx [Hy [Hz ->]]]]]].
  destruct (trim_split s) as [l [r [_ [_ Hs]]]].
  rewrite E in Hs.
  exists (l ++ pre ++ x), y, ((z ++ post) ++ r). split; [|split; [|split]].
  - intros F. apply append_eq_nil in F as [_ F].
    apply append_eq_nil in F as [_ F]. contradiction.
  - exact Hy.
  - intros F. apply append_eq_nil in F as [F _].
    apply append_eq_nil in F as [F _]. contradiction.
  - rewrite Hs. rewrite !append_assoc. reflexivity.
Qed.

End RegExpFacts.


(** * Facts about the handlers *)

Import LoginScreen.

Ltac run_js :=
  unfold handleAuth, handleAuth_body, lookup, persistUser, tryFinally, tryCatch,
    when, doc, getDocFromServer, getDocFromCache, setDoc, getDocs, Alert_alert,
    console_log, console_warn, console_error, navigation_replace, storage_set,
    storage_getString, storage_delete_opt, perform, modifyState, getState,
    return_, throw, bind, ret; simpl.

Ltac solve_read :=
  first
    [ assumption
    | unfold pointRead;
      repeat match goal with
        | H : server_reachable _ = _ |- _ => rewrite H
        | H : cache_answer _ = _ |- _ => rewrite H
        | H : mahasiswaCollection _ !! _ = _ |- _ => rewrite H
        end;
      reflexivity ].

(** Split every point read in the context into its three courses. *)
Ltac inv_reads :=
  repeat match goal with
    | H : pointRead _ _ _ = _ |- _ =>
        unfold pointRead in H;
        let Hs := fresh "Hserver" in
        let Hc := fresh "Hcache" in
        destruct (server_reachable _) eqn:Hs in H;
        [|destruct (cache_answer _) eqn:Hc in H];
        inversion H; subst; clear H
    end.

(** Split a point read into its three courses. *)
Ltac inv_read H :=
  unfold pointRead in H;
  let Hs := fresh "Hserver" in
  let Hc := fresh "Hcache" in
  destruct (server_reachable _) eqn:Hs in H;
  [|destruct (cache_answer _) eqn:Hc in H];
  inversion H; subst; clear H.

Section HandlerFacts.

Lemma logged_nil w : logged w [] = w.
Proof. destruct w. unfold logged. simpl. now rewrite app_nil_r. Qed.

Lemma emitted_logged w es : emitted w (logged w es) = es.
Proof. unfold emitted, logged. simpl. apply drop_app_length. Qed.

Lemma emitted_app w s d es : emitted w {| storage := s; mahasiswaCollection := d; effects := effects w ++ es |} = es.
Proof. unfold emitted. simpl. apply drop_app_length. Qed.

(** [handleAuth] leaves by one of the exits of [submits]. *)
Lemma handleAuth_submits net st w :
  submits net st w (handleAuth net (st, w)).1 (handleAuth net (st, w)).2.1
    (handleAuth net (st, w)).2.2.
Proof.
  destruct (validateForm (authMode st) (form st)) as [message|] eqn:Hv.
  - run_js. rewrite Hv. simpl. now constructor.
  - run_js. rewrite Hv. simpl.
    destruct (reference_accepted net) eqn:Hdoc; simpl;
      [|rewrite <- ?app_assoc; simpl; now apply submits_bad_reference].
    destruct (server_reachable net) eqn:Hs; simpl.
    + destruct (mahasiswaCollection w !! normalizeNim (f_nim (form st)))
        as [data|] eqn:Hd; simpl;
      destruct (authMode st) eqn:Hm; simpl; rewrite <- 1?Hm in Hv.
      * destruct (password_differs data (f_password (form st))) eqn:Hpw; simpl;
          rewrite <- ?app_assoc; simpl.
        -- eapply submits_login_mismatch with (es := [_]); solve_read.
        -- eapply submits_login_success with (es := [_]); solve_read.
      * rewrite <- ?app_assoc; simpl.
        eapply submits_register_duplicate with (es := [_]); solve_read.
      * rewrite <- ?app_assoc; simpl.
        eapply submits_login_missing with (es := [_]); solve_read.
      * destruct (write_accepted net) eqn:Hw; simpl; rewrite <- ?app_assoc; simpl.
        -- eapply submits_register_success with (es := [_]); solve_read.
        -- eapply submits_register_refused with (es := [_]); solve_read.
    + destruct (cache_answer net) as [cached|] eqn:Hc; simpl.
      * destruct (authMode st) eqn:Hm; simpl; rewrite <- 1?Hm in Hv.
        -- destruct cached as [data|]; simpl.
           ++ destruct (password_differs data (f_password (form st))) eqn:Hpw;
                simpl; rewrite <- ?app_assoc; simpl.
              ** eapply submits_login_mismatch with (es := [_; _; _]); solve_read.
              ** eapply submits_login_success with (es := [_; _; _]); solve_read.
           ++ rewrite <- ?app_assoc; simpl.
              eapply submits_login_missing with (es := [_; _; _]); solve_read.
        -- rewrite <- ?app_assoc; simpl.
           eapply submits_register_cached with (es := [_; _; _]); solve_read.
      * rewrite <- ?app_assoc; simpl.
        eapply submits_offline with (es := [_; _; _; _; _]); solve_read.
Qed.

End HandlerFacts.

(** * The exits of a submit, in general *)

Section SubmitFacts.
Variables (net : Network) (st : State) (w : World).

(** The promise of [handleAuth] never rejects: every throw is caught. *)
Lemma submits_never_rejects r st' w' err :
  submits net st w r st' w' -> r <> Rejected err.
Proof. destruct 1; discriminate. Qed.

(** Every submit only extends the log. *)
Lemma submits_effects r st' w' :
  submits net st w r st' w' ->
  exists es : list Effect, effects w' = (effects w ++ es)%list.
Proof. destruct 1; simpl; eauto. Qed.

(** A submit leaves the local store alone or persists the user it signed
    in. *)
Lemma submits_storage r st' w' :
  submits net st w r st' w' ->
  (storage w' = storage w /\ forall u, r <> Success u) \/
  (exists u, r = Success u /\ storage w' = persisted u (storage w)).
Proof. destruct 1; simpl; eauto; left; split; congruence. Qed.

(** A submit never removes a document from the collection. *)
Lemma submits_collection_mono r st' w' k :
  submits net st w r st' w' ->
  is_Some (mahasiswaCollection w !! k) -> is_Some (mahasiswaCollection w' !! k).
Proof.
  destruct 1; simpl; auto. intros Hk.
  destruct (decide (normalizeNim (f_nim (form st)) = k)) as [->|Hne].
  - rewrite lookup_insert_eq. eauto.
  - now rewrite lookup_insert_ne.
Qed.

End SubmitFacts.

Lemma validateForm_register_email f :
  validateForm register f = None ->
  RegExp.test emailRegex (trimValue (f_email f)) = true.
Proof.
  unfold validateForm. simpl.
  repeat match goal with
         | |- context [if negb ?b then _ else _] => destruct b; simpl
         end; congruence.
Qed.

Lemma validateForm_password mode f :
  validateForm mode f = None -> JS.trim (f_password f) <> "".
Proof.
  unfold validateForm, trimValue.
  destruct (JS.truthy (JS.trim (f_nim f))); simpl; [|discriminate].
  destruct (JS.truthy (JS.trim (f_password f))) eqn:E; simpl; [|discriminate].
  intros _. now apply truthy_true.
Qed.


Lemma validateForm_login_iff f :
  validateForm login f = None <->
  JS.trim (f_nim f) <> "" /\ JS.trim (f_password f) <> "".
Proof.
  unfold validateForm, trimValue. simpl.
  rewrite <- !truthy_true.
  destruct (JS.truthy (JS.trim (f_nim f))), (JS.truthy (JS.trim (f_password f)));
    simpl; intuition congruence.
Qed.

Lemma precedes_allBefore p q es : precedes p q es = true -> allBefore p q es.
Proof.
  unfold allBefore. induction es as [|e es IH]; intros H i j a b Hi Hj Hp Hq.
  - discriminate.
  - cbn [precedes] in H. apply andb_true_iff in H as [Hhead Htail].
    destruct j as [|j].
    + simpl in Hj. injection Hj as ->. rewrite Hq in Hhead.
      cbn [negb orb] in Hhead. rewrite forallb_forall in Hhead.
      assert (In a (b :: es)) as Ha.
      { apply list_elem_of_In. eapply list_elem_of_lookup_2. exact Hi. }
      specialize (Hhead a Ha). rewrite Hp in Hhead. discriminate.
    + destruct i as [|i]; [lia|].
      simpl in Hi, Hj. specialize (IH Htail i j a b Hi Hj Hp Hq). lia.
Qed.

Lemma password_differs_true data p :
  password_differs data p = true <-> d_password data <> Some p.
Proof.
  unfold password_differs. destruct (d_password data) as [q|]; [|split; congruence].
  rewrite negb_true_iff, String.eqb_neq. split; congruence.
Qed.

Lemma readResolvesTo_pointRead net w key data :
  readResolvesTo net w key data ->
  exists es usedCache,
    pointRead net w key =
    (es, Some ({| snap_id := key; snap_data := data |}, usedCache)).
Proof.
  unfold pointRead. intros [_ [[-> <-]|[-> ->]]]; eauto.
Qed.

Lemma password_differs_false data p :
  password_differs data p = false <-> d_password data = Some p.
Proof.
  unfold password_differs. destruct (d_password data) as [q|]; [|split; congruence].
  rewrite negb_false_iff, String.eqb_eq. split; congruence.
Qed.

Lemma pointRead_readResolvesTo net w key es snap usedCache :
  reference_accepted net = true ->
  pointRead net w key = (es, Some (snap, usedCache)) ->
  readResolvesTo net w key (snap_data snap).
Proof.
  intros Href H. split; [exact Href|]. inv_read H; simpl; auto.
Qed.

Lemma handleAuth_invalid net st w message :
  validateForm (authMode st) (form st) = Some message ->
  handleAuth net (st, w) =
  (ValidationError message, (st, logged w [Alert "Error" message])).
Proof. intros Hv. run_js. now rewrite Hv. Qed.

(** An email of the minimal pattern has an [@] in it. *)
Lemma minimalEmailPattern_at s :
  minimalEmailPattern s -> RegExp.test [RegExp.One (RegExp.Literal "@")] s = true.
Proof.
  intros [a [b [c [_ [_ [_ ->]]]]]]. apply test_spec.
  exists a, "@", (b ++ "." ++ c). split; [reflexivity|].
  repeat constructor.
Qed.

(** * The properties of the specification *)

(** C7. A register-mode submit whose email field is not of the minimal
    pattern [<non-empty>@<non-empty>.<non-empty>] ends in a validation error
    before any remote operation: the alert is the only effect, no server
    read, cache read or write is performed, and the component, the local
    store and the collection are unchanged. *)
Theorem invalid_email_rejected_locally (net : Network) (st : State) (w : World) :
  authMode st = register ->
  ~ minimalEmailPattern (f_email (form st)) ->
  let r := handleAuth net (st, w) in
  exists message,
    r.1 = ValidationError message /\
    r.2.1 = st /\
    storage r.2.2 = storage w /\
    mahasiswaCollection r.2.2 = mahasiswaCollection w /\
    emitted w r.2.2 = [Alert "Error" message] /\
    Forall (fun e => isRemote e = false) (emitted w r.2.2).
Proof.
  intros Hm Hno r.
  destruct (validateForm (authMode st) (form st)) as [message|] eqn:Hv.
  - exists message. subst r. rewrite (handleAuth_invalid _ _ _ _ Hv).
    cbn [fst snd]. rewrite emitted_logged.
    repeat split; auto.
  - exfalso. apply Hno. rewrite Hm in Hv.
    apply emailRegex_test_trim. now apply validateForm_register_email.
Qed.

Lemma invalid_email_rejected_locally_witness :
  let st := Scenario.registering Scenario.notAnEmail in
  let r := handleAuth Scenario.online (st, Scenario.emptyWorld) in
  authMode st = register /\
  ~ minimalEmailPattern (f_email (form st)) /\
  exists message,
    r.1 = ValidationError message /\
    r.2.1 = st /\
    storage r.2.2 = storage Scenario.emptyWorld /\
    mahasiswaCollection r.2.2 = mahasiswaCollection Scenario.emptyWorld /\
    emitted Scenario.emptyWorld r.2.2 = [Alert "Error" message] /\
    Forall (fun e => isRemote e = false) (emitted Scenario.emptyWorld r.2.2).
Proof.
  assert (Hno : ~ minimalEmailPattern
                  (f_email (form (Scenario.registering Scenario.notAnEmail)))).
  { intros H. apply minimalEmailPattern_at in H. vm_compute in H. discriminate. }
  split; [reflexivity|]. split; [exact Hno|].
  exact (invalid_email_rejected_locally Scenario.online
           (Scenario.registering Scenario.notAnEmail) Scenario.emptyWorld
           eq_refl Hno).
Defined.

(** C2. In register mode, a submit whose point read was served from the
    cache fallback (the server read failed and the cache read succeeded)
    is rejected with [ConnectivityRequiredError], whether the cached
    document exists or not, with no remote write and no local session
    write. *)
Theorem register_from_cache_rejected (net : Network) (st : State) (w : World)
    (key : string) (snap : Snapshot) :
  authMode st = register ->
  In (GetDocFromCache key (Some snap)) (emitted w (handleAuth net (st, w)).2.2) ->
  let r := handleAuth net (st, w) in
  r.1 = ConnectivityRequiredError /\
  In (GetDocFromServer key None) (emitted w r.2.2) /\
  storage r.2.2 = storage w /\
  mahasiswaCollection r.2.2 = mahasiswaCollection w /\
  Forall (fun e => isRemoteWrite e = false /\ isLocalWrite e = false)
    (emitted w r.2.2).
Proof.
  intros Hm Hin r. subst r.
  destruct (handleAuth_submits net st w); try congruence;
    rewrite ?emitted_logged, ?emitted_app in *; inv_reads; simpl in Hin;
    try (exfalso; intuition discriminate).
  destruct Hin as [E|[E|[E|[E|[E|[]]]]]]; try discriminate.
  injection E as <- _. simpl.
  repeat split; auto.
  repeat (constructor; [split; reflexivity|]). constructor.
Qed.

Lemma register_from_cache_rejected_witness :
  let st := Scenario.registering Scenario.jane in
  let net := Scenario.fromCache None in
  let r := handleAuth net (st, Scenario.emptyWorld) in
  authMode st = register /\
  In (GetDocFromCache "a100" (Some {| snap_id := "a100"; snap_data := None |}))
    (emitted Scenario.emptyWorld r.2.2) /\
  r.1 = ConnectivityRequiredError /\
  In (GetDocFromServer "a100" None) (emitted Scenario.emptyWorld r.2.2) /\
  storage r.2.2 = storage Scenario.emptyWorld /\
  mahasiswaCollection r.2.2 = mahasiswaCollection Scenario.emptyWorld /\
  Forall (fun e => isRemoteWrite e = false /\ isLocalWrite e = false)
    (emitted Scenario.emptyWorld r.2.2).
Proof.
  assert (Hin : In (GetDocFromCache "a100"
                      (Some {| snap_id := "a100"; snap_data := None |}))
                  (emitted Scenario.emptyWorld
                     (handleAuth (Scenario.fromCache None)
                        (Scenario.registering Scenario.jane,
                         Scenario.emptyWorld)).2.2)).
  { vm_compute. tauto. }
  split; [reflexivity|]. split; [exact Hin|].
  exact (register_from_cache_rejected (Scenario.fromCache None)
           (Scenario.registering Scenario.jane) Scenario.emptyWorld
           "a100" {| snap_id := "a100"; snap_data := None |} eq_refl Hin).
Defined.

(** A login that reaches the comparison with a differing credential. *)
Lemma handleAuth_login_mismatch net st w data :
  authMode st = login ->
  validateForm login (form st) = None ->
  readResolvesTo net w (normalizeNim (f_nim (form st))) (Some data) ->
  d_password data <> Some (f_password (form st)) ->
  (handleAuth net (st, w)).1 = InvalidCredentialError /\
  storage (handleAuth net (st, w)).2.2 = storage w /\
  mahasiswaCollection (handleAuth net (st, w)).2.2 = mahasiswaCollection w.
Proof.
  intros Hm Hv Hread Hpw.
  pose proof (proj1 Hread) as Hdoc. revert Hdoc.
  apply readResolvesTo_pointRead in Hread as [es0 [c0 Hread]].
  apply password_differs_true in Hpw.
  rewrite <- Hm in Hv.
  intros Hdoc.
  destruct (handleAuth_submits net st w); try congruence;
    match goal with
    | Hp : pointRead _ _ _ = _ |- _ =>
        rewrite Hread in Hp; injection Hp as <- <- <-
    end; simpl in *; try congruence.
  repeat split; auto.
Qed.

(** C4, as amended. A login submit that passes validation, and whose point
    read resolves (by the server, or by the cache when the server read
    fails) to an existing record whose stored credential differs from the
    submitted one, ends in [InvalidCredentialError], never in
    [NotFoundError], and leaves the local session record and the
    collection unchanged. *)
Theorem wrong_credential_rejected (net : Network) (st : State) (w : World)
    (data : Doc) :
  authMode st = login ->
  validateForm login (form st) = None ->
  readResolvesTo net w (normalizeNim (f_nim (form st))) (Some data) ->
  d_password data <> Some (f_password (form st)) ->
  let r := handleAuth net (st, w) in
  r.1 = InvalidCredentialError /\
  r.1 <> NotFoundError /\
  storage r.2.2 = storage w /\
  mahasiswaCollection r.2.2 = mahasiswaCollection w.
Proof.
  intros Hm Hv Hread Hpw r. subst r.
  destruct (handleAuth_login_mismatch net st w data Hm Hv Hread Hpw)
    as [E [Hs Hc]].
  rewrite E. repeat split; auto; discriminate.
Qed.

Lemma wrong_credential_rejected_witness :
  let st := Scenario.loggingIn Scenario.janeWrong in
  let w := Scenario.janeRegistered in
  let r := handleAuth Scenario.online (st, w) in
  authMode st = login /\
  validateForm login (form st) = None /\
  readResolvesTo Scenario.online w (normalizeNim (f_nim (form st)))
    (Some Scenario.janeDoc) /\
  d_password Scenario.janeDoc <> Some (f_password (form st)) /\
  r.1 = InvalidCredentialError /\
  r.1 <> NotFoundError /\
  storage r.2.2 = storage w /\
  mahasiswaCollection r.2.2 = mahasiswaCollection w.
Proof.
  assert (Hread : readResolvesTo Scenario.online Scenario.janeRegistered
                    (normalizeNim (f_nim (form (Scenario.loggingIn Scenario.janeWrong))))
                    (Some Scenario.janeDoc)).
  { split; [reflexivity|]. left. split; vm_compute; reflexivity. }
  assert (Hpw : d_password Scenario.janeDoc <>
                Some (f_password (form (Scenario.loggingIn Scenario.janeWrong)))).
  { vm_compute. discriminate. }
  split; [reflexivity|]. split; [reflexivity|].
  split; [exact Hread|]. split; [exact Hpw|].
  exact (wrong_credential_rejected Scenario.online
           (Scenario.loggingIn Scenario.janeWrong) Scenario.janeRegistered
           Scenario.janeDoc eq_refl eq_refl Hread Hpw).
Defined.

(** C4, as stated, fails: Jane's record exists at the normalized key
    [a100] with the credential [pw1]; a login that submits a credential of
    one space, which differs from the stored one, ends in a validation
    error and not in [InvalidCredentialError]. *)
Lemma wrong_credential_blank_counterexample :
  let st := Scenario.loggingIn Scenario.janeBlank in
  let w := Scenario.janeRegistered in
  let r := handleAuth Scenario.online (st, w) in
  authMode st = login /\
  mahasiswaCollection w !! normalizeNim (f_nim (form st)) = Some Scenario.janeDoc /\
  d_password Scenario.janeDoc <> Some (f_password (form st)) /\
  r.1 = ValidationError "Password wajib diisi." /\
  r.1 <> InvalidCredentialError.
Proof.
  split; [reflexivity|]. split; [vm_compute; reflexivity|].
  split; [vm_compute; discriminate|].
  split; [vm_compute; reflexivity | vm_compute; discriminate].
Qed.

(** C5. Within every successful submit the side effects are ordered: the
    remote document write, which happens in register mode and only there,
    comes before the local session persistence, and the local session
    persistence comes before the navigation transition. *)
Theorem side_effects_ordered (net : Network) (st : State) (w : World)
    (user : User) :
  (handleAuth net (st, w)).1 = Success user ->
  let es := emitted w (handleAuth net (st, w)).2.2 in
  allBefore isRemoteWrite isLocalWrite es /\
  allBefore isLocalWrite isNavigation es /\
  (authMode st = register ->
   exists pre post,
     es = (pre ++ SetDoc (normalizeNim (f_nim (form st)))
                    (withNimKey user (normalizeNim (f_nim (form st)))) true
               :: post)%list) /\
  (authMode st = login -> Forall (fun e => isRemoteWrite e = false) es) /\
  (exists pre,
     es = (pre ++ persistEffects user ++ [NavigationReplace Mahasiswa])%list).
Proof.
  intros Hok es. subst es. revert Hok.
  destruct (handleAuth_submits net st w); try discriminate; intros Hok;
    injection Hok as <-; rewrite emitted_app.
  - inv_reads. repeat split.
    + now apply precedes_allBefore.
    + now apply precedes_allBefore.
    + intros _. now exists [GetDocFromServer (normalizeNim (f_nim (form st)))
                        (Some {| snap_id := normalizeNim (f_nim (form st));
                                 snap_data := mahasiswaCollection w
                                              !! normalizeNim (f_nim (form st)) |});
                      Console LogLevel "Auth attempt"],
        (Console LogLevel "Register success"
         :: persistEffects (buildUserPayload (form st))
         ++ [NavigationReplace Mahasiswa])%list.
    + congruence.
    + eexists. rewrite !app_assoc. reflexivity.
  - repeat split.
    + inv_reads; now apply precedes_allBefore.
    + inv_reads; now apply precedes_allBefore.
    + congruence.
    + intros _. inv_reads; simpl; repeat constructor.
    + eexists. rewrite !app_assoc. reflexivity.
Qed.

Lemma side_effects_ordered_witness :
  let st := Scenario.registering Scenario.jane in
  let w := Scenario.emptyWorld in
  let user := buildUserPayload Scenario.jane in
  let es := emitted w (handleAuth Scenario.online (st, w)).2.2 in
  (handleAuth Scenario.online (st, w)).1 = Success user /\
  allBefore isRemoteWrite isLocalWrite es /\
  allBefore isLocalWrite isNavigation es /\
  (authMode st = register ->
   exists pre post,
     es = (pre ++ SetDoc (normalizeNim (f_nim (form st)))
                    (withNimKey user (normalizeNim (f_nim (form st)))) true
               :: post)%list) /\
  (authMode st = login -> Forall (fun e => isRemoteWrite e = false) es) /\
  (exists pre,
     es = (pre ++ persistEffects user ++ [NavigationReplace Mahasiswa])%list).
Proof.
  assert (Hok : (handleAuth Scenario.online
                   (Scenario.registering Scenario.jane, Scenario.emptyWorld)).1 =
                Success (buildUserPayload Scenario.jane)).
  { vm_compute. reflexivity. }
  split; [exact Hok|].
  exact (side_effects_ordered Scenario.online
           (Scenario.registering Scenario.jane) Scenario.emptyWorld
           (buildUserPayload Scenario.jane) Hok).
Defined.

(** C6. After logout has cleared the three keys of the local session
    store, the next session bootstrap lets the form render and does not
    route to the listing: its check that identifier and name are present
    fails on the cleared store. *)
Theorem logout_then_bootstrap_renders_form (s : App.State) :
  let s1 := App.step App.Logout s in
  let s2 := App.step App.MountLogin s1 in
  emitted (App.world s) (App.world s1) =
    [StorageSet STORAGE_KEYS_nim ""; StorageSet STORAGE_KEYS_nama "";
     StorageSet STORAGE_KEYS_email ""; NavigationReplace Login] /\
  Forall (fun key => storage (App.world s1) !! key = Some "") STORAGE_KEYS_values /\
  render (App.loginScreen s2) = AuthForm login initialFormState /\
  currentUser (App.loginScreen s2) = None /\
  emitted (App.world s1) (App.world s2) = [] /\
  storage (App.world s2) = storage (App.world s1).
Proof.
  destruct s as [ls ms [sto col log]].
  cbn -[emitted]. unfold App.onMahasiswa, App.onLogin, MahasiswaScreen.handleLogout,
    mountEffect. cbn -[emitted]. run_js.
  unfold emitted. simpl.
  rewrite <- !app_assoc. simpl.
  rewrite drop_app_length.
  unfold STORAGE_KEYS_nim, STORAGE_KEYS_nama, STORAGE_KEYS_email.
  rewrite lookup_insert_ne by discriminate.
  rewrite lookup_insert_ne by discriminate.
  rewrite lookup_insert_eq.
  rewrite lookup_insert_ne by discriminate.
  rewrite lookup_insert_eq. simpl.
  rewrite drop_all.
  repeat split; auto.
  unfold STORAGE_KEYS_values, STORAGE_KEYS_nim, STORAGE_KEYS_nama,
    STORAGE_KEYS_email.
  constructor; [|constructor; [|constructor; [|constructor]]].
  - rewrite lookup_insert_ne by discriminate.
    rewrite lookup_insert_ne by discriminate. apply lookup_insert_eq.
  - rewrite lookup_insert_ne by discriminate. apply lookup_insert_eq.
  - apply lookup_insert_eq.
Qed.

(** C8. When the collection scan of a listing mount fails, the error is
    logged and swallowed: the data stays the empty list, the screen shows
    the empty list, and no alert or other error state reaches the user. *)
Theorem scan_failure_shows_empty_list (s : App.State) :
  let s1 := App.step (App.MountMahasiswa None) s in
  MahasiswaScreen.data (App.mahasiswaScreen s1) = [] /\
  MahasiswaScreen.loading (App.mahasiswaScreen s1) = false /\
  MahasiswaScreen.render (App.mahasiswaScreen s1) =
    MahasiswaScreen.EmptyText "Belum ada data mahasiswa." /\
  emitted (App.world s) (App.world s1) =
    [GetDocs false; Console ErrorLevel "Failed to fetch mahasiswa"] /\
  Forall (fun e => isAlert e = false /\ isNavigation e = false)
    (emitted (App.world s) (App.world s1)) /\
  storage (App.world s1) = storage (App.world s) /\
  mahasiswaCollection (App.world s1) = mahasiswaCollection (App.world s).
Proof.
  destruct s as [ls ms [sto col log]].
  cbn -[emitted]. unfold App.onMahasiswa, MahasiswaScreen.fetchData.
  run_js. unfold emitted. simpl.
  rewrite <- !app_assoc. simpl. rewrite drop_app_length.
  repeat split; auto.
Qed.

(** * The application as a whole *)

(** What one action can do to the local store: nothing, persist a user
    (logout persists the empty one), or delete the three keys. *)
Lemma step_storage a s :
  let st := storage (App.world s) in
  let st' := storage (App.world (App.step a s)) in
  st' = st \/
  (exists u, st' = persisted u st) \/
  st' = delete STORAGE_KEYS_email
          (delete STORAGE_KEYS_nama (delete STORAGE_KEYS_nim st)).
Proof.
  destruct s as [ls ms [sto col log]].
  destruct a as [|field value|mode|net|has_delete|scan|]; cbn [App.step].
  - left. unfold App.onLogin, mountEffect. run_js.
    destruct (sto !! STORAGE_KEYS_nim) as [n|]; [|reflexivity].
    destruct (sto !! STORAGE_KEYS_nama) as [m|]; [|reflexivity].
    destruct (JS.truthy n && JS.truthy m); reflexivity.
  - now left.
  - now left.
  - cbn [App.loginScreen App.world].
    destruct (submits_storage _ _ _ _ _ _ (handleAuth_submits net ls
                {| storage := sto; mahasiswaCollection := col; effects := log |}))
      as [[E _]|[u [_ E]]]; cbn [App.world snd fst] in *; eauto.
  - unfold App.onLogin, handleLocalLogout, clearPersistedUser. run_js.
    destruct has_delete; simpl; auto.
  - left. unfold App.onMahasiswa, MahasiswaScreen.fetchData. run_js.
    destruct scan; reflexivity.
  - right. left.
    exists {| u_nim := ""; u_nama := ""; u_email := Some ""; u_password := None |}.
    reflexivity.
Qed.

(** No action removes a document from the collection. *)
Lemma step_collection_mono a s k :
  is_Some (mahasiswaCollection (App.world s) !! k) ->
  is_Some (mahasiswaCollection (App.world (App.step a s)) !! k).
Proof.
  destruct s as [ls ms [sto col log]].
  destruct a as [|field value|mode|net|has_delete|scan|]; cbn [App.step].
  - unfold App.onLogin, mountEffect. run_js.
    destruct (sto !! STORAGE_KEYS_nim) as [n|]; [|auto].
    destruct (sto !! STORAGE_KEYS_nama) as [m|]; [|auto].
    destruct (JS.truthy n && JS.truthy m); auto.
  - auto.
  - auto.
  - cbn [App.loginScreen App.world].
    apply (submits_collection_mono _ _ _ _ _ _ _ (handleAuth_submits net ls
             {| storage := sto; mahasiswaCollection := col; effects := log |})).
  - unfold App.onLogin, handleLocalLogout, clearPersistedUser. run_js.
    destruct has_delete; simpl; auto.
  - unfold App.onMahasiswa, MahasiswaScreen.fetchData. run_js.
    destruct scan; auto.
  - auto.
Qed.

Lemma run_collection_mono actions s k :
  is_Some (mahasiswaCollection (App.world s) !! k) ->
  is_Some (mahasiswaCollection (App.world (App.run actions s)) !! k).
Proof.
  revert s. induction actions as [|a actions IH]; intros s H; [exact H|].
  apply IH. now apply step_collection_mono.
Qed.

(** An invariant of the local store that every kind of write keeps is kept
    by every run. *)
Lemma run_storage_invariant (P : gmap string string -> Prop) :
  (forall st u, P st -> P (persisted u st)) ->
  (forall st, P st ->
     P (delete STORAGE_KEYS_email
          (delete STORAGE_KEYS_nama (delete STORAGE_KEYS_nim st)))) ->
  forall actions s,
    P (storage (App.world s)) -> P (storage (App.world (App.run actions s))).
Proof.
  intros Hset Hdel actions.
  induction actions as [|a actions IH]; intros s H; [exact H|].
  apply IH.
  destruct (step_storage a s) as [E|[[u E]|E]]; rewrite E; auto.
Qed.

Lemma persisted_lookup u st k :
  persisted u st !! k =
  if decide (k = STORAGE_KEYS_email) then Some (JS.nullish (u_email u) "")
  else if decide (k = STORAGE_KEYS_nama) then Some (u_nama u)
  else if decide (k = STORAGE_KEYS_nim) then Some (u_nim u)
  else st !! k.
Proof.
  unfold persisted. rewrite !lookup_insert.
  repeat case_decide; congruence.
Qed.

(** By keys: the three keys are always written together. From a fresh
    installation, after every sequence of operations, they are all missing
    or all set, where a key set to the empty string counts as set. This is
    a fact about keys; the session record is read by values. *)
Lemma session_keys_written_together (collection : gmap string Doc)
    (actions : list App.Action) :
  let st := storage (App.world (App.run actions (App.init collection))) in
  Forall (fun key => st !! key = None) STORAGE_KEYS_values \/
  Forall (fun key => is_Some (st !! key)) STORAGE_KEYS_values.
Proof.
  apply (run_storage_invariant
           (fun st => Forall (fun key => st !! key = None) STORAGE_KEYS_values \/
                      Forall (fun key => is_Some (st !! key)) STORAGE_KEYS_values)).
  - intros st u _. right. unfold STORAGE_KEYS_values.
    constructor; [|constructor; [|constructor; [|constructor]]];
      rewrite persisted_lookup; repeat case_decide; eauto; congruence.
  - intros st _. left.
    unfold STORAGE_KEYS_values, STORAGE_KEYS_nim, STORAGE_KEYS_nama,
      STORAGE_KEYS_email.
    constructor; [|constructor; [|constructor; [|constructor]]].
    + rewrite lookup_delete_ne by discriminate.
      rewrite lookup_delete_ne by discriminate. apply lookup_delete_eq.
    + rewrite lookup_delete_ne by discriminate. apply lookup_delete_eq.
    + apply lookup_delete_eq.
  - left. repeat constructor.
Qed.

(** Identifiers that differ only in padding and case share a document
    key. *)
Lemma normalizeNim_padding_case a b :
  differOnlyInPaddingAndCase a b -> normalizeNim a = normalizeNim b.
Proof.
  intros [l1 [c1 [r1 [l2 [c2 [r2 [-> [-> [Hl1 [Hr1 [Hl2 [Hr2 Hc]]]]]]]]]]]].
  unfold normalizeNim.
  rewrite !trim_padding by assumption.
  now rewrite !toLowerCase_trim, Hc.
Qed.

(** Normalization is idempotent. *)
Lemma normalizeNim_idempotent x : normalizeNim (normalizeNim x) = normalizeNim x.
Proof.
  unfold normalizeNim.
  now rewrite <- toLowerCase_trim, trim_idempotent, toLowerCase_idempotent.
Qed.

(** A successful registration leaves its document at the normalized key. *)
Lemma register_success_document net st w user :
  authMode st = register ->
  (handleAuth net (st, w)).1 = Success user ->
  mahasiswaCollection (handleAuth net (st, w)).2.2
    !! normalizeNim (f_nim (form st)) =
  Some (withNimKey (buildUserPayload (form st)) (normalizeNim (f_nim (form st)))).
Proof.
  intros Hm.
  destruct (handleAuth_submits net st w); try discriminate; try congruence.
  intros _. simpl. apply lookup_insert_eq.
Qed.

(** C3, as amended. Of two registration attempts whose raw identifiers
    differ only in surrounding white space and letter case, if the first
    succeeds, and the second, made after any further operations, passes
    validation and has its existence check answered by the server, then
    the second is rejected with [DuplicateIdentifierError]: both
    identifiers normalize to the same document key. Nothing is written. *)
Theorem duplicate_registration_rejected (net1 net2 : Network) (s : App.State)
    (actions : list App.Action) (user : User) :
  let s1 := App.step (App.Submit net1) s in
  let s2 := App.run actions s1 in
  let first := form (App.loginScreen s) in
  let second := form (App.loginScreen s2) in
  authMode (App.loginScreen s) = register ->
  (handleAuth net1 (App.loginScreen s, App.world s)).1 = Success user ->
  authMode (App.loginScreen s2) = register ->
  differOnlyInPaddingAndCase (f_nim first) (f_nim second) ->
  validateForm register second = None ->
  serverAnswers net2 ->
  let r := handleAuth net2 (App.loginScreen s2, App.world s2) in
  normalizeNim (f_nim first) = normalizeNim (f_nim second) /\
  r.1 = DuplicateIdentifierError /\
  storage r.2.2 = storage (App.world s2) /\
  mahasiswaCollection r.2.2 = mahasiswaCollection (App.world s2).
Proof.
  intros s1 s2 first second Hm1 Hok Hm2 Hdiff Hv [Href Hup] r.
  pose proof (normalizeNim_padding_case _ _ Hdiff) as Hkey.
  split; [exact Hkey|].
  assert (Hdoc : is_Some (mahasiswaCollection (App.world s2)
                            !! normalizeNim (f_nim second))).
  { subst s2. apply run_collection_mono. subst s1. cbn [App.step App.world].
    rewrite <- Hkey. subst first.
    rewrite (register_success_document net1 _ _ user Hm1 Hok). eauto. }
  destruct Hdoc as [doc Hdoc]. subst r second.
  rewrite <- Hm2 in Hv.
  destruct (handleAuth_submits net2 (App.loginScreen s2) (App.world s2));
    try congruence; try (inv_reads; simpl in *; congruence).
  auto.
Qed.

Lemma duplicate_registration_rejected_witness :
  let s := {| App.loginScreen := Scenario.registering Scenario.janePadded;
              App.mahasiswaScreen := MahasiswaScreen.initialState;
              App.world := Scenario.emptyWorld |} in
  let actions :=
    [App.MountMahasiswa None; App.Logout; App.MountLogin;
     App.SwitchMode register;
     App.UpdateField field_nim "a100"; App.UpdateField field_nama "Jane Doe";
     App.UpdateField field_email "jane@x.edu";
     App.UpdateField field_password "pw1"] in
  let s2 := App.run actions (App.step (App.Submit Scenario.online) s) in
  let r := handleAuth Scenario.online (App.loginScreen s2, App.world s2) in
  form (App.loginScreen s2) = Scenario.janeLower /\
  differOnlyInPaddingAndCase " A100 " "a100" /\
  normalizeNim " A100 " = normalizeNim "a100" /\
  r.1 = DuplicateIdentifierError /\
  storage r.2.2 = storage (App.world s2) /\
  mahasiswaCollection r.2.2 = mahasiswaCollection (App.world s2).
Proof.
  assert (Hdiff : differOnlyInPaddingAndCase " A100 " "a100").
  { exists " ", "A100", " ", "", "a100", "". repeat split; reflexivity. }
  split; [vm_compute; reflexivity|]. split; [exact Hdiff|].
  refine (duplicate_registration_rejected Scenario.online Scenario.online
            {| App.loginScreen := Scenario.registering Scenario.janePadded;
               App.mahasiswaScreen := MahasiswaScreen.initialState;
               App.world := Scenario.emptyWorld |}
            [App.MountMahasiswa None; App.Logout; App.MountLogin;
             App.SwitchMode register;
             App.UpdateField field_nim "a100";
             App.UpdateField field_nama "Jane Doe";
             App.UpdateField field_email "jane@x.edu";
             App.UpdateField field_password "pw1"]
            (buildUserPayload Scenario.janePadded) eq_refl _ _ _ _
            (conj eq_refl eq_refl)).
  - vm_compute. reflexivity.
  - vm_compute. reflexivity.
  - exact Hdiff.
  - vm_compute. reflexivity.
Defined.

(** C3, as stated, fails: the first registration, of [" A100 "], succeeds;
    a second registration of ["a100"] whose server read fails while the
    cache answers is rejected with [ConnectivityRequiredError], and a
    second registration of ["a100"] with the name left empty is rejected
    at validation; neither is rejected with [DuplicateIdentifierError]. *)
Lemma duplicate_registration_counterexample :
  let first :=
    handleAuth Scenario.online
      (Scenario.registering Scenario.janePadded, Scenario.emptyWorld) in
  let second :=
    handleAuth (Scenario.fromCache (Some Scenario.janeDoc))
      (Scenario.registering Scenario.janeLower, first.2.2) in
  let second' :=
    handleAuth Scenario.online
      (Scenario.registering Scenario.janeLowerNoName, first.2.2) in
  differOnlyInPaddingAndCase
    (f_nim Scenario.janePadded) (f_nim Scenario.janeLower) /\
  first.1 = Success (buildUserPayload Scenario.janePadded) /\
  mahasiswaCollection first.2.2 !! "a100" = Some Scenario.janeDoc /\
  second.1 = ConnectivityRequiredError /\
  second.1 <> DuplicateIdentifierError /\
  second'.1 = ValidationError "Nama wajib diisi." /\
  second'.1 <> DuplicateIdentifierError.
Proof.
  split.
  { exists " ", "A100", " ", "", "a100", "". repeat split; reflexivity. }
  split; [vm_compute; reflexivity|]. split; [vm_compute; reflexivity|].
  split; [vm_compute; reflexivity|]. split; [vm_compute; discriminate|].
  split; [vm_compute; reflexivity | vm_compute; discriminate].
Qed.

Lemma handleAuth_success_valid net st w user :
  (handleAuth net (st, w)).1 = Success user ->
  validateForm (authMode st) (form st) = None.
Proof. destruct (handleAuth_submits net st w); congruence || discriminate. Qed.




Lemma persistUser_run {R : Type} (user : User) (st : State) (w : World) :
  persistUser (R := R) user (st, w) =
  (Normal tt,
   (st, {| storage := persisted user (storage w);
           mahasiswaCollection := mahasiswaCollection w;
           effects := effects w ++ persistEffects user |})).
Proof. run_js. unfold persistEffects. now rewrite <- !app_assoc. Qed.

Lemma sessionKeysOnly_persistEffects user :
  Forall (fun e => sessionKeysOnly e = true) (persistEffects user).
Proof. repeat constructor. Qed.

(** The local writes of a submit go to the three session keys. *)
Lemma submits_sessionKeysOnly net st w r st' w' :
  submits net st w r st' w' ->
  Forall (fun e => sessionKeysOnly e = true) (emitted w w').
Proof.
  destruct 1; rewrite ?emitted_logged, ?emitted_app; inv_reads;
    repeat constructor.
Qed.

(** What one action logs: local writes to the three session keys only. *)
Lemma step_sessionKeysOnly a s :
  exists es,
    effects (App.world (App.step a s)) = (effects (App.world s) ++ es)%list /\
    Forall (fun e => sessionKeysOnly e = true) es.
Proof.
  destruct s as [ls ms [sto col log]].
  destruct a as [|field value|mode|net|has_delete|scan|]; cbn [App.step].
  - unfold App.onLogin, mountEffect. run_js.
    destruct (sto !! STORAGE_KEYS_nim) as [n|];
      [|exists []; split; [now rewrite app_nil_r | constructor]].
    destruct (sto !! STORAGE_KEYS_nama) as [m|];
      [|exists []; split; [now rewrite app_nil_r | constructor]].
    destruct (JS.truthy n && JS.truthy m); simpl.
    + eexists. split; [reflexivity | repeat constructor].
    + exists []. split; [now rewrite app_nil_r | constructor].
  - exists []. split; [simpl; now rewrite app_nil_r | constructor].
  - exists []. split; [simpl; now rewrite app_nil_r | constructor].
  - cbn [App.loginScreen App.world].
    pose proof (handleAuth_submits net ls
                  {| storage := sto; mahasiswaCollection := col; effects := log |})
      as H.
    destruct (submits_effects _ _ _ _ _ _ H) as [es Hes].
    exists es. split; [exact Hes|].
    apply submits_sessionKeysOnly in H. unfold emitted in H.
    rewrite Hes in H. simpl in H. now rewrite drop_app_length in H.
  - unfold App.onLogin, handleLocalLogout, clearPersistedUser. run_js.
    destruct has_delete; simpl.
    + rewrite <- !app_assoc. eexists. split; [reflexivity | repeat constructor].
    + exists []. split; [now rewrite app_nil_r | constructor].
  - unfold App.onMahasiswa, MahasiswaScreen.fetchData. run_js.
    destruct scan; simpl; rewrite <- ?app_assoc;
      (eexists; split; [reflexivity | repeat constructor]).
  - unfold App.onMahasiswa, MahasiswaScreen.handleLogout. run_js.
    rewrite <- !app_assoc.
    eexists; split; [reflexivity | repeat constructor].
Qed.

Lemma run_sessionKeysOnly actions s :
  Forall (fun e => sessionKeysOnly e = true) (effects (App.world s)) ->
  Forall (fun e => sessionKeysOnly e = true)
    (effects (App.world (App.run actions s))).
Proof.
  revert s. induction actions as [|a actions IH]; intros s H; [exact H|].
  apply IH. destruct (step_sessionKeysOnly a s) as [es [-> Hes]].
  apply Forall_app. split; assumption.
Qed.

(** C10. The credential is never written to the local session store.
    - [persistUser] writes exactly the three keys [user_nim], [user_nama]
      and [user_email], and what it does is the same whatever the
      [password] property of the object it is handed;
    - a submit writes nothing to the local store and leaves it as it was,
      or (register) writes the trimmed identifier, name and email of the
      form under the three keys, or (login) writes the identifier, name
      and email fields, or their defaults, of the very document that the
      point read at the normalized identifier resolved to, whose
      credential field is the one typed; these three writes are all the
      local writes of the submit;
    - after every sequence of operations from a fresh installation, the
      local store has no key but the three, and no write to any other key
      was ever made. *)
Theorem credential_never_persisted :
  (forall (user : User) (st : State) (w : World),
     persistUser (R := unit) user (st, w) =
     (Normal tt,
      (st, {| storage :=
                <[STORAGE_KEYS_email := JS.nullish (u_email user) ""]>
                  (<[STORAGE_KEYS_nama := u_nama user]>
                     (<[STORAGE_KEYS_nim := u_nim user]> (storage w)));
              mahasiswaCollection := mahasiswaCollection w;
              effects :=
                effects w ++
                [StorageSet STORAGE_KEYS_nim (u_nim user);
                 StorageSet STORAGE_KEYS_nama (u_nama user);
                 StorageSet STORAGE_KEYS_email (JS.nullish (u_email user) "")] |}))) /\
  (forall nim nama email password1 password2 (s : State * World),
     persistUser (R := unit)
       {| u_nim := nim; u_nama := nama; u_email := email;
          u_password := password1 |} s =
     persistUser (R := unit)
       {| u_nim := nim; u_nama := nama; u_email := email;
          u_password := password2 |} s) /\
  (forall net st w,
     let f := form st in
     let w' := (handleAuth net (st, w)).2.2 in
     let writes := List.filter isLocalWrite (emitted w w') in
     (storage w' = storage w /\ writes = []) \/
     (authMode st = register /\
      storage w' =
        <[STORAGE_KEYS_email := trimValue (f_email f)]>
          (<[STORAGE_KEYS_nama := trimValue (f_nama f)]>
             (<[STORAGE_KEYS_nim := trimValue (f_nim f)]> (storage w))) /\
      writes =
        [StorageSet STORAGE_KEYS_nim (trimValue (f_nim f));
         StorageSet STORAGE_KEYS_nama (trimValue (f_nama f));
         StorageSet STORAGE_KEYS_email (trimValue (f_email f))]) \/
     (authMode st = login /\
      exists data,
        readResolvesTo net w (normalizeNim (f_nim f)) (Some data) /\
        d_password data = Some (f_password f) /\
        storage w' =
          <[STORAGE_KEYS_email := JS.nullish (d_email data) ""]>
            (<[STORAGE_KEYS_nama := JS.nullish (d_nama data) "Mahasiswa"]>
               (<[STORAGE_KEYS_nim :=
                    JS.nullish (d_nim data) (trimValue (f_nim f))]>
                  (storage w))) /\
        writes =
          [StorageSet STORAGE_KEYS_nim
             (JS.nullish (d_nim data) (trimValue (f_nim f)));
           StorageSet STORAGE_KEYS_nama (JS.nullish (d_nama data) "Mahasiswa");
           StorageSet STORAGE_KEYS_email (JS.nullish (d_email data) "")])) /\
  (forall collection actions,
     let final := App.world (App.run actions (App.init collection)) in
     dom (storage final) ⊆ list_to_set STORAGE_KEYS_values /\
     Forall (fun e => sessionKeysOnly e = true) (effects final)).
Proof.
  split; [|split; [|split]].
  - intros user st w. apply persistUser_run.
  - intros nim nama email password1 password2 [st w].
    now rewrite !persistUser_run.
  - intros net st w f w' writes. subst f w' writes.
    destruct (handleAuth_submits net st w) as
      [ | | | | | | | | |es snap usedCache data Hv Href Hm Hread Hdata Hpw user].
    all: try (left; rewrite ?emitted_logged; inv_reads; split; reflexivity).
    + right. left. rewrite emitted_app. inv_reads.
      split; [assumption|]. split; reflexivity.
    + right. right. split; [assumption|]. exists data.
      pose proof (pointRead_readResolvesTo _ _ _ _ _ _ Href Hread) as Hres.
      rewrite Hdata in Hres.
      split; [exact Hres|].
      split; [now apply password_differs_false|].
      subst user. rewrite emitted_app. inv_reads; split; reflexivity.
  - intros collection actions final. subst final. split.
    + apply (run_storage_invariant
               (fun st => dom st ⊆ list_to_set STORAGE_KEYS_values)).
      * intros st u H k. unfold persisted. rewrite !dom_insert_L.
        rewrite !elem_of_union, !elem_of_singleton.
        intros [->|[->|[->|Hk]]]; [| | |now apply H];
          apply elem_of_list_to_set; unfold STORAGE_KEYS_values;
          rewrite !elem_of_cons; auto.
      * intros st H k. rewrite !dom_delete_L, !elem_of_difference.
        intros [[[Hk _] _] _]. now apply H.
      * simpl. rewrite dom_empty_L. apply empty_subseteq.
    + apply run_sessionKeysOnly. constructor.
Qed.

(** * The session record

    The fields of the session record are all absent or all present as long
    as every document that a read returns is complete, as the documents
    that registration writes are; a login to a document without an email
    stores the empty string under [user_email], beside an identifier and a
    name. *)

Lemma validateForm_register_fields f :
  validateForm register f = None ->
  JS.truthy (trimValue (f_nim f)) = true /\
  JS.truthy (trimValue (f_nama f)) = true /\
  JS.truthy (trimValue (f_email f)) = true.
Proof.
  unfold validateForm. simpl.
  repeat match goal with
         | |- context [if negb ?b then _ else _] => destruct b; simpl
         end; try discriminate; auto.
Qed.

Lemma valueAt_persisted u st :
  valueAt (persisted u st) STORAGE_KEYS_nim = u_nim u /\
  valueAt (persisted u st) STORAGE_KEYS_nama = u_nama u /\
  valueAt (persisted u st) STORAGE_KEYS_email = JS.nullish (u_email u) "".
Proof.
  unfold valueAt. rewrite !persisted_lookup.
  repeat split; repeat case_decide; try reflexivity; discriminate.
Qed.

Lemma sessionFilled_persisted u st :
  JS.truthy (u_nim u) = true ->
  JS.truthy (u_nama u) = true ->
  JS.truthy (JS.nullish (u_email u) "") = true ->
  sessionFilled (persisted u st).
Proof.
  intros Hn Hm He. destruct (valueAt_persisted u st) as [En [Em Ee]].
  unfold sessionFilled, STORAGE_KEYS_values.
  constructor; [|constructor; [|constructor; [|constructor]]]; congruence.
Qed.

Lemma completeDoc_fields d :
  completeDoc d = true ->
  forall nimForDisplay,
    JS.truthy (u_nim (userOfDoc d nimForDisplay)) = true /\
    JS.truthy (u_nama (userOfDoc d nimForDisplay)) = true /\
    JS.truthy (JS.nullish (u_email (userOfDoc d nimForDisplay)) "") = true.
Proof.
  unfold completeDoc, userOfDoc. simpl.
  destruct (d_nim d), (d_nama d), (d_email d); simpl;
    rewrite ?andb_true_iff; intuition discriminate.
Qed.

(** One submit keeps the values all empty or all non-empty, and the
    collection complete. *)
Lemma submits_complete net st w r st' w' :
  submits net st w r st' w' ->
  completeCache net = true ->
  map_Forall (fun _ d => completeDoc d = true) (mahasiswaCollection w) ->
  sessionEmpty (storage w) \/ sessionFilled (storage w) ->
  (sessionEmpty (storage w') \/ sessionFilled (storage w')) /\
  map_Forall (fun _ d => completeDoc d = true) (mahasiswaCollection w').
Proof.
  intros H Hcache Hcol Hst.
  destruct H; simpl; auto.
  - (* registration *)
    match goal with
    | Hv : validateForm _ _ = None, Hm : authMode st = register |- _ =>
        rewrite Hm in Hv;
        destruct (validateForm_register_fields _ Hv) as [Hn [Hnama He]]
    end.
    split.
    + right. now apply sessionFilled_persisted.
    + apply map_Forall_insert_2; [|exact Hcol].
      unfold completeDoc. simpl. now rewrite Hn, Hnama, He.
  - (* login *)
    assert (completeDoc data = true) as Hd.
    { inv_reads; simpl in *.
      - eapply (Hcol _ data). eassumption.
      - unfold completeCache in Hcache.
        match goal with
        | Hc : cache_answer net = Some _ |- _ => rewrite Hc in Hcache
        end.
        subst. exact Hcache. }
    split; [|exact Hcol]. right.
    destruct (completeDoc_fields _ Hd (trimValue (f_nim (form st))))
      as [Hn [Hnama He]].
    now apply sessionFilled_persisted.
Qed.

Lemma step_complete a s :
  completeAction a = true ->
  map_Forall (fun _ d => completeDoc d = true)
    (mahasiswaCollection (App.world s)) ->
  sessionEmpty (storage (App.world s)) \/ sessionFilled (storage (App.world s)) ->
  (sessionEmpty (storage (App.world (App.step a s))) \/
   sessionFilled (storage (App.world (App.step a s)))) /\
  map_Forall (fun _ d => completeDoc d = true)
    (mahasiswaCollection (App.world (App.step a s))).
Proof.
  destruct s as [ls ms [sto col log]].
  destruct a as [|field value|mode|net|has_delete|scan|];
    cbn [App.step completeAction]; intros Ha Hcol Hst.
  - unfold App.onLogin, mountEffect. run_js.
    destruct (sto !! STORAGE_KEYS_nim) as [n|]; [|auto].
    destruct (sto !! STORAGE_KEYS_nama) as [m|]; [|auto].
    destruct (JS.truthy n && JS.truthy m); auto.
  - auto.
  - auto.
  - cbn [App.loginScreen App.world] in *.
    exact (submits_complete _ _ _ _ _ _
             (handleAuth_submits net ls
                {| storage := sto; mahasiswaCollection := col; effects := log |})
             Ha Hcol Hst).
  - unfold App.onLogin, handleLocalLogout, clearPersistedUser. run_js.
    destruct has_delete; simpl in *; [|auto].
    split; [|exact Hcol]. left.
    unfold sessionEmpty, STORAGE_KEYS_values, valueAt,
      STORAGE_KEYS_nim, STORAGE_KEYS_nama, STORAGE_KEYS_email.
    constructor; [|constructor; [|constructor; [|constructor]]].
    + rewrite lookup_delete_ne by discriminate.
      rewrite lookup_delete_ne by discriminate.
      now rewrite lookup_delete_eq.
    + rewrite lookup_delete_ne by discriminate. now rewrite lookup_delete_eq.
    + now rewrite lookup_delete_eq.
  - unfold App.onMahasiswa, MahasiswaScreen.fetchData. run_js.
    destruct scan; auto.
  - unfold App.onMahasiswa, MahasiswaScreen.handleLogout. run_js.
    split; [|exact Hcol]. left.
    unfold sessionEmpty, STORAGE_KEYS_values, valueAt,
      STORAGE_KEYS_nim, STORAGE_KEYS_nama, STORAGE_KEYS_email.
    constructor; [|constructor; [|constructor; [|constructor]]].
    + rewrite lookup_insert_ne by discriminate.
      rewrite lookup_insert_ne by discriminate.
      now rewrite lookup_insert_eq.
    + rewrite lookup_insert_ne by discriminate. now rewrite lookup_insert_eq.
    + now rewrite lookup_insert_eq.
Qed.

(** X26. From a fresh installation and a collection of complete documents,
    the values of the three keys are all empty or all non-empty after
    every run in which the cache answers with complete documents only. *)
Lemma session_values_all_or_nothing collection actions :
  map_Forall (fun _ d => completeDoc d = true) collection ->
  forallb completeAction actions = true ->
  let st := storage (App.world (App.run actions (App.init collection))) in
  sessionEmpty st \/ sessionFilled st.
Proof.
  intros Hcol Hacts.
  assert (Hinit : sessionEmpty (storage (App.world (App.init collection)))).
  { unfold sessionEmpty, STORAGE_KEYS_values, valueAt. simpl.
    repeat constructor. }
  assert (Hgen : forall s,
    map_Forall (fun _ d => completeDoc d = true)
      (mahasiswaCollection (App.world s)) ->
    sessionEmpty (storage (App.world s)) \/ sessionFilled (storage (App.world s)) ->
    sessionEmpty (storage (App.world (App.run actions s))) \/
    sessionFilled (storage (App.world (App.run actions s)))).
  { clear Hcol Hinit. induction actions as [|a actions IH]; intros s Hc Hs.
    - exact Hs.
    - simpl in Hacts. apply andb_true_iff in Hacts as [Ha Hacts].
      destruct (step_complete a s Ha Hc Hs) as [Hs' Hc'].
      exact (IH Hacts _ Hc' Hs'). }
  apply Hgen; [exact Hcol | now left].
Qed.




(** A login to a document without an email: the session has an identifier
    and a name, and the empty string for an email. *)
Lemma login_without_email_example :
  let data := {| d_nim := Some "A100"; d_nama := Some "Jane Doe";
                 d_email := None; d_password := Some "pw1";
                 d_nimKey := Some "a100" |} in
  let w := {| storage := ∅; mahasiswaCollection := {[ "a100" := data ]};
              effects := [] |} in
  let r := handleAuth Scenario.online (Scenario.loggingIn Scenario.janeTrimmed, w) in
  r.1 = Success (userOfDoc data "A100") /\
  storage r.2.2 !! STORAGE_KEYS_nim = Some "A100" /\
  storage r.2.2 !! STORAGE_KEYS_nama = Some "Jane Doe" /\
  storage r.2.2 !! STORAGE_KEYS_email = Some "".
Proof. repeat split; vm_compute; reflexivity. Qed.

(** * Beyond the specification: the exits of a submit *)

(** Settle a submit by its exits: the exits that the hypotheses exclude
    go, and the point read of the remaining ones is split. *)
Ltac by_exit net st w :=
  destruct (handleAuth_submits net st w);
  try congruence; inv_reads; simpl in *; try congruence.

Lemma toLowerCase_nil s : JS.toLowerCase s = "" <-> s = "".
Proof. destruct s; simpl; split; congruence. Qed.

Lemma validateForm_key mode f :
  validateForm mode f = None -> normalizeNim (f_nim f) <> "".
Proof.
  unfold validateForm, normalizeNim, trimValue.
  destruct (JS.truthy (JS.trim (f_nim f))) eqn:E; simpl; [|discriminate].
  intros _ H. apply (proj1 (toLowerCase_nil _)) in H. rewrite H in E. discriminate.
Qed.

(** X1. A register submit of a valid form, with the existence check
    answered by the server, no document at the normalized key and the write
    accepted, succeeds: exactly the document at that key is created, with
    the trimmed identifier, name and email, the credential as typed and the
    key; the key is not empty and is the normalization of the stored
    identifier; the session holds the trimmed identifier, name and email;
    the form is reset and the spinner is off. *)
Theorem registration_creates_record (net : Network) (st : State) (w : World) :
  authMode st = register ->
  validateForm register (form st) = None ->
  serverAnswers net ->
  mahasiswaCollection w !! normalizeNim (f_nim (form st)) = None ->
  write_accepted net = true ->
  let f := form st in
  let key := normalizeNim (f_nim f) in
  let record :=
    {| d_nim := Some (JS.trim (f_nim f)); d_nama := Some (JS.trim (f_nama f));
       d_email := Some (JS.trim (f_email f)); d_password := Some (f_password f);
       d_nimKey := Some key |} in
  let r := handleAuth net (st, w) in
  r.1 = Success (buildUserPayload f) /\
  mahasiswaCollection r.2.2 = <[key := record]> (mahasiswaCollection w) /\
  key <> "" /\
  normalizeNim (JS.trim (f_nim f)) = key /\
  storage r.2.2 =
    <[STORAGE_KEYS_email := JS.trim (f_email f)]>
      (<[STORAGE_KEYS_nama := JS.trim (f_nama f)]>
         (<[STORAGE_KEYS_nim := JS.trim (f_nim f)]> (storage w))) /\
  form r.2.1 = initialFormState /\
  loading r.2.1 = false /\
  authMode r.2.1 = register /\
  emitted w r.2.2 =
    [GetDocFromServer key (Some {| snap_id := key; snap_data := None |});
     Console LogLevel "Auth attempt"; SetDoc key record true;
     Console LogLevel "Register success";
     StorageSet STORAGE_KEYS_nim (JS.trim (f_nim f));
     StorageSet STORAGE_KEYS_nama (JS.trim (f_nama f));
     StorageSet STORAGE_KEYS_email (JS.trim (f_email f));
     NavigationReplace Mahasiswa].
Proof.
  intros Hm Hv [Href Hup] Hnone Hw f key record r. subst f key record r.
  pose proof (validateForm_key _ _ Hv) as Hkey.
  rewrite <- Hm in Hv.
  by_exit net st w.
  rewrite emitted_app, Hnone.
  repeat split; auto.
  unfold normalizeNim. now rewrite trim_idempotent.
Qed.

Lemma registration_creates_record_witness :
  let st := Scenario.registering Scenario.janePadded in
  let r := handleAuth Scenario.online (st, Scenario.emptyWorld) in
  r.1 = Success (buildUserPayload Scenario.janePadded) /\
  mahasiswaCollection r.2.2 = {[ "a100" := Scenario.janeDoc ]} /\
  storage r.2.2 !! "user_nim" = Some "A100".
Proof.
  pose proof (registration_creates_record Scenario.online
                (Scenario.registering Scenario.janePadded) Scenario.emptyWorld
                eq_refl eq_refl (conj eq_refl eq_refl) eq_refl eq_refl)
    as [Hr [Hc [_ [_ [Hs _]]]]].
  split; [exact Hr|]. split.
  - rewrite Hc. vm_compute. reflexivity.
  - rewrite Hs. vm_compute. reflexivity.
Defined.

(** X2. A login submit of a valid form whose point read resolves, by the
    server or by the cache when the server read fails, to a document with
    the submitted credential succeeds: the session holds the identifier,
    name and email of the document, with the trimmed typed identifier, the
    name [Mahasiswa] and the empty email for a missing field; nothing is
    written to the collection; the form is reset and the spinner is off. *)
Theorem login_restores_session (net : Network) (st : State) (w : World)
    (data : Doc) :
  authMode st = login ->
  validateForm login (form st) = None ->
  readResolvesTo net w (normalizeNim (f_nim (form st))) (Some data) ->
  d_password data = Some (f_password (form st)) ->
  let r := handleAuth net (st, w) in
  r.1 = Success (userOfDoc data (JS.trim (f_nim (form st)))) /\
  storage r.2.2 =
    <[STORAGE_KEYS_email := JS.nullish (d_email data) ""]>
      (<[STORAGE_KEYS_nama := JS.nullish (d_nama data) "Mahasiswa"]>
         (<[STORAGE_KEYS_nim := JS.nullish (d_nim data) (JS.trim (f_nim (form st)))]>
            (storage w))) /\
  mahasiswaCollection r.2.2 = mahasiswaCollection w /\
  Forall (fun e => isRemoteWrite e = false) (emitted w r.2.2) /\
  form r.2.1 = initialFormState /\
  loading r.2.1 = false.
Proof.
  intros Hm Hv [Href Hread] Hpw r. subst r.
  apply password_differs_false in Hpw.
  rewrite <- Hm in Hv.
  destruct Hread as [[Hup Hcol]|[Hdown Hcache]];
    by_exit net st w; simplify_eq;
    rewrite emitted_app; repeat split; auto; repeat constructor.
Qed.

Lemma login_restores_session_witness :
  let st := Scenario.loggingIn Situation.janeUpper in
  let net := Scenario.fromCache (Some Scenario.janeDoc) in
  let r := handleAuth net (st, Scenario.emptyWorld) in
  r.1 = Success (userOfDoc Scenario.janeDoc "A100") /\
  storage r.2.2 !! "user_nama" = Some "Jane Doe" /\
  mahasiswaCollection r.2.2 = ∅.
Proof.
  pose proof (login_restores_session
                (Scenario.fromCache (Some Scenario.janeDoc))
                (Scenario.loggingIn Situation.janeUpper) Scenario.emptyWorld
                Scenario.janeDoc eq_refl eq_refl
                (conj eq_refl (or_intror (conj eq_refl eq_refl))) eq_refl)
    as [Hr [Hs [Hc _]]].
  split; [exact Hr|]. split.
  - rewrite Hs. vm_compute. reflexivity.
  - exact Hc.
Defined.

(** X3. A login submit of a valid form whose point read resolves to no
    document is rejected with [NotFoundError], by the alert [NIM belum
    terdaftar.], and both stores and the form are as before. The read that
    decides is the one that answered: a cache without the document gives
    this result whatever the server holds. *)
Theorem login_unknown_identifier (net : Network) (st : State) (w : World) :
  authMode st = login ->
  validateForm login (form st) = None ->
  readResolvesTo net w (normalizeNim (f_nim (form st))) None ->
  let r := handleAuth net (st, w) in
  r.1 = NotFoundError /\
  sameStores w r.2.2 /\
  form r.2.1 = form st /\
  loading r.2.1 = false /\
  exists es : list Effect,
    emitted w r.2.2 =
    (es ++ [Console LogLevel "Auth attempt";
            Alert "Error" "NIM belum terdaftar."])%list /\
    Forall (fun e => isAlert e = false) es.
Proof.
  intros Hm Hv [Href Hread] r. subst r.
  rewrite <- Hm in Hv.
  destruct Hread as [[Hup Hcol]|[Hdown Hcache]];
    by_exit net st w; simplify_eq;
    rewrite emitted_logged; repeat split; auto;
    first [ eexists [_]; split; [reflexivity | repeat constructor]
          | eexists [_; _; _]; split; [reflexivity | repeat constructor] ].
Qed.

Lemma login_unknown_identifier_witness :
  let st := Scenario.loggingIn Scenario.janeTrimmed in
  let w := Scenario.janeRegistered in
  let r := handleAuth (Scenario.fromCache None) (st, w) in
  mahasiswaCollection w !! normalizeNim (f_nim (form st)) = Some Scenario.janeDoc /\
  r.1 = NotFoundError /\
  sameStores w r.2.2.
Proof.
  pose proof (login_unknown_identifier (Scenario.fromCache None)
                (Scenario.loggingIn Scenario.janeTrimmed)
                Scenario.janeRegistered eq_refl eq_refl
                (conj eq_refl (or_intror (conj eq_refl eq_refl))))
    as [Hr [Hs _]].
  split; [vm_compute; reflexivity|]. split; [exact Hr | exact Hs].
Defined.

(** X4. When the write of a registration is refused, the submit ends in
    the general failure alert and nothing is persisted: no session is
    written, no navigation happens, both stores and the form are as
    before. *)
Theorem refused_write_leaves_no_session (net : Network) (st : State) (w : World) :
  authMode st = register ->
  validateForm register (form st) = None ->
  serverAnswers net ->
  mahasiswaCollection w !! normalizeNim (f_nim (form st)) = None ->
  write_accepted net = false ->
  let r := handleAuth net (st, w) in
  r.1 = UnexpectedError /\
  sameStores w r.2.2 /\
  form r.2.1 = form st /\
  currentUser r.2.1 = currentUser st /\
  loading r.2.1 = false /\
  Forall (fun e => isLocalWrite e = false /\ isNavigation e = false)
    (emitted w r.2.2) /\
  In (Alert "Error" "Terjadi kesalahan. Coba lagi.") (emitted w r.2.2).
Proof.
  intros Hm Hv [Href Hup] Hnone Hw r. subst r.
  rewrite <- Hm in Hv.
  by_exit net st w.
  rewrite emitted_logged. repeat split; auto.
  - repeat constructor.
  - simpl. tauto.
Qed.

Lemma refused_write_leaves_no_session_witness :
  let st := Scenario.registering Scenario.jane in
  let r := handleAuth Situation.readOnly (st, Scenario.emptyWorld) in
  r.1 = UnexpectedError /\ sameStores Scenario.emptyWorld r.2.2.
Proof.
  pose proof (refused_write_leaves_no_session Situation.readOnly
                (Scenario.registering Scenario.jane) Scenario.emptyWorld
                eq_refl eq_refl (conj eq_refl eq_refl) eq_refl eq_refl)
    as [Hr [Hs _]].
  split; [exact Hr | exact Hs].
Defined.

(** X5. When the server read fails and the cache read fails too, a valid
    submit, in either mode, stops with the connectivity alert: the log
    holds the two failed reads, their two console lines and the alert, and
    nothing after them; both stores and the form are as before. *)
Theorem unreachable_store_aborts (net : Network) (st : State) (w : World) :
  validateForm (authMode st) (form st) = None ->
  reference_accepted net = true ->
  server_reachable net = false ->
  cache_answer net = None ->
  let key := normalizeNim (f_nim (form st)) in
  let r := handleAuth net (st, w) in
  r.1 = ConnectivityError /\
  sameStores w r.2.2 /\
  form r.2.1 = form st /\
  authMode r.2.1 = authMode st /\
  loading r.2.1 = false /\
  emitted w r.2.2 =
    [GetDocFromServer key None;
     Console WarnLevel "Server fetch failed, fallback to cache:";
     GetDocFromCache key None;
     Console ErrorLevel "Cache fetch failed:";
     Alert "Error" "Tidak bisa mengakses data. Periksa koneksi."].
Proof.
  intros Hv Href Hdown Hcache key r. subst key r.
  by_exit net st w.
  rewrite emitted_logged. repeat split; auto.
Qed.

Lemma unreachable_store_aborts_witness :
  let st := Scenario.loggingIn Scenario.janeTrimmed in
  let r := handleAuth Situation.offline (st, Scenario.janeRegistered) in
  r.1 = ConnectivityError /\ sameStores Scenario.janeRegistered r.2.2.
Proof.
  pose proof (unreachable_store_aborts Situation.offline
                (Scenario.loggingIn Scenario.janeTrimmed)
                Scenario.janeRegistered eq_refl eq_refl eq_refl eq_refl)
    as [Hr [Hs _]].
  split; [exact Hr | exact Hs].
Defined.

(** X6. Every submit gives the user exactly one signal: a failing submit
    shows exactly one alert and does not navigate, a successful one shows
    no alert and navigates exactly once. *)
Theorem submit_signals_once (net : Network) (st : State) (w : World) :
  let r := handleAuth net (st, w) in
  let es := emitted w r.2.2 in
  (countIf isAlert es = 1 /\ countIf isNavigation es = 0 /\
   forall u, r.1 <> Success u) \/
  (countIf isAlert es = 0 /\ countIf isNavigation es = 1 /\
   exists u, r.1 = Success u).
Proof.
  intros r es. subst r es.
  destruct (handleAuth_submits net st w);
    rewrite ?emitted_logged, ?emitted_app; inv_reads;
    first [ left; split; [reflexivity | split; [reflexivity | intros u; discriminate]]
          | right; split; [reflexivity | split; [reflexivity | eauto]] ].
Qed.

(** X7. A submit that does not succeed changes nothing that lasts: both
    stores, the form as typed, the mode and the current user are as
    before; and after every submit the spinner is off, or nothing of the
    component has changed. *)
Theorem failed_submit_changes_nothing (net : Network) (st : State) (w : World) :
  let r := handleAuth net (st, w) in
  ((exists u, r.1 = Success u) \/
   (sameStores w r.2.2 /\ form r.2.1 = form st /\
    authMode r.2.1 = authMode st /\ currentUser r.2.1 = currentUser st /\
    hydrated r.2.1 = hydrated st)) /\
  (loading r.2.1 = false \/ r.2.1 = st).
Proof.
  intros r. subst r.
  destruct (handleAuth_submits net st w); simpl; split; eauto;
    right; repeat split; reflexivity.
Qed.

(** X8. A login never succeeds on a wrong credential: when a login submit
    succeeds, the form was valid and the point read had resolved to a
    document whose stored credential is exactly the submitted one, and the
    signed-in user is built from that document. *)
Theorem login_success_means_matching_credential (net : Network) (st : State)
    (w : World) (user : User) :
  authMode st = login ->
  (handleAuth net (st, w)).1 = Success user ->
  exists data,
    validateForm login (form st) = None /\
    readResolvesTo net w (normalizeNim (f_nim (form st))) (Some data) /\
    d_password data = Some (f_password (form st)) /\
    user = userOfDoc data (JS.trim (f_nim (form st))).
Proof.
  intros Hm. unfold readResolvesTo.
  destruct (handleAuth_submits net st w); try discriminate; try congruence;
    intros [= <-];
    match goal with
    | Hpw : password_differs ?d _ = false |- _ =>
        apply password_differs_false in Hpw; exists d
    end;
    inv_reads; simpl in *;
    (split; [congruence|]); (split; [|split; [assumption | reflexivity]]);
    (split; [assumption|]);
    first [ left; split; congruence | right; split; congruence ].
Qed.

Lemma login_success_means_matching_credential_witness :
  let st := Scenario.loggingIn Scenario.janeTrimmed in
  let w := Scenario.janeRegistered in
  (handleAuth Scenario.online (st, w)).1 = Success (userOfDoc Scenario.janeDoc "A100") /\
  exists data,
    validateForm login (form st) = None /\
    readResolvesTo Scenario.online w (normalizeNim (f_nim (form st))) (Some data) /\
    d_password data = Some (f_password (form st)) /\
    userOfDoc Scenario.janeDoc "A100" = userOfDoc data (JS.trim (f_nim (form st))).
Proof.
  assert (Hok : (handleAuth Scenario.online
                   (Scenario.loggingIn Scenario.janeTrimmed,
                    Scenario.janeRegistered)).1 =
                Success (userOfDoc Scenario.janeDoc "A100")).
  { vm_compute. reflexivity. }
  split; [exact Hok|].
  exact (login_success_means_matching_credential Scenario.online
           (Scenario.loggingIn Scenario.janeTrimmed) Scenario.janeRegistered
           (userOfDoc Scenario.janeDoc "A100") eq_refl Hok).
Defined.

(** X9. A registration succeeds only on a key that the server reported
    free: when a register submit succeeds, the form was valid, the
    existence check was answered by the server and not by the cache, the
    collection held no document at the normalized key, and the write was
    accepted. *)
Theorem registration_success_means_fresh_key (net : Network) (st : State)
    (w : World) (user : User) :
  authMode st = register ->
  (handleAuth net (st, w)).1 = Success user ->
  validateForm register (form st) = None /\
  serverAnswers net /\
  mahasiswaCollection w !! normalizeNim (f_nim (form st)) = None /\
  write_accepted net = true /\
  user = buildUserPayload (form st).
Proof.
  intros Hm. unfold serverAnswers.
  destruct (handleAuth_submits net st w); try discriminate; try congruence;
    intros [= <-]; inv_reads; simpl in *; repeat split; auto; congruence.
Qed.

Lemma registration_success_means_fresh_key_witness :
  let st := Scenario.registering Scenario.jane in
  (handleAuth Scenario.online (st, Scenario.emptyWorld)).1 =
    Success (buildUserPayload Scenario.jane) /\
  validateForm register (form st) = None /\
  serverAnswers Scenario.online /\
  mahasiswaCollection Scenario.emptyWorld !! normalizeNim (f_nim (form st)) = None /\
  write_accepted Scenario.online = true /\
  buildUserPayload Scenario.jane = buildUserPayload (form st).
Proof.
  assert (Hok : (handleAuth Scenario.online
                   (Scenario.registering Scenario.jane, Scenario.emptyWorld)).1 =
                Success (buildUserPayload Scenario.jane)).
  { vm_compute. reflexivity. }
  split; [exact Hok|].
  exact (registration_success_means_fresh_key Scenario.online
           (Scenario.registering Scenario.jane) Scenario.emptyWorld
           (buildUserPayload Scenario.jane) eq_refl Hok).
Defined.

(** X10. What the component keeps in memory after a submit: a successful
    registration leaves the payload, with the credential as typed, as the
    current user; a successful login leaves a current user without a
    credential; a failing submit leaves the current user as it was. *)
Theorem current_user_after_submit (net : Network) (st : State) (w : World) :
  let r := handleAuth net (st, w) in
  match r.1 with
  | Success user =>
      currentUser r.2.1 = Some user /\
      u_password user =
        if AuthMode_eqb (authMode st) register
        then Some (f_password (form st)) else None
  | _ => currentUser r.2.1 = currentUser st
  end.
Proof.
  intros r. subst r.
  destruct (handleAuth_submits net st w); simpl; auto;
    match goal with
    | Hm : authMode st = _ |- _ => rewrite Hm
    end; auto.
Qed.

(** * Beyond the specification: submits in sequence *)

Lemma register_success_storage net st w user :
  authMode st = register ->
  (handleAuth net (st, w)).1 = Success user ->
  storage (handleAuth net (st, w)).2.2 =
  persisted (buildUserPayload (form st)) (storage w).
Proof.
  intros Hm.
  destruct (handleAuth_submits net st w); try discriminate; try congruence.
  reflexivity.
Qed.

Lemma persisted_again u u' st :
  u_nim u' = u_nim u -> u_nama u' = u_nama u ->
  JS.nullish (u_email u') "" = JS.nullish (u_email u) "" ->
  persisted u' (persisted u st) = persisted u st.
Proof.
  intros Hn Hm He. apply map_eq. intros k.
  rewrite !persisted_lookup, Hn, Hm, He.
  repeat case_decide; reflexivity.
Qed.

(** X11. After a successful registration, a login with the same
    credential and an identifier that differs from the registered one
    only in surrounding white space and letter case, answered by the
    server, succeeds, and the session it writes is the session the
    registration wrote: the identifier as registered, not as typed at
    login. *)
Theorem login_after_registration_same_session (net1 net2 : Network)
    (st1 st2 : State) (w1 : World) (user : User) :
  authMode st1 = register ->
  (handleAuth net1 (st1, w1)).1 = Success user ->
  authMode st2 = login ->
  differOnlyInPaddingAndCase (f_nim (form st1)) (f_nim (form st2)) ->
  f_password (form st2) = f_password (form st1) ->
  serverAnswers net2 ->
  let w2 := (handleAuth net1 (st1, w1)).2.2 in
  let r := handleAuth net2 (st2, w2) in
  r.1 = Success
          {| u_nim := JS.trim (f_nim (form st1));
             u_nama := JS.trim (f_nama (form st1));
             u_email := Some (JS.trim (f_email (form st1)));
             u_password := None |} /\
  storage r.2.2 = storage w2 /\
  mahasiswaCollection r.2.2 = mahasiswaCollection w2.
Proof.
  intros Hm1 Hok Hm2 Hdiff Hpw [Href Hup] w2 r.
  pose proof (normalizeNim_padding_case _ _ Hdiff) as Hkey.
  pose proof (register_success_document net1 st1 w1 user Hm1 Hok) as Hdoc.
  pose proof (register_success_storage net1 st1 w1 user Hm1 Hok) as Hsto.
  pose proof (handleAuth_success_valid _ _ _ _ Hok) as Hv1.
  fold w2 in Hdoc, Hsto. rewrite Hkey in Hdoc.
  assert (Hv2 : validateForm (authMode st2) (form st2) = None).
  { rewrite Hm2. apply validateForm_login_iff. split.
    - intros E. apply (validateForm_key _ _ Hv1). rewrite Hkey.
      unfold normalizeNim. now rewrite E.
    - rewrite Hpw. exact (validateForm_password _ _ Hv1). }
  subst r. clearbody w2.
  by_exit net2 st2 w2; simplify_eq.
  - exfalso.
    match goal with
    | H : password_differs _ _ = true |- _ =>
        apply password_differs_true in H; apply H
    end.
    simpl. now rewrite Hpw.
  - repeat split.
    rewrite Hsto. now apply persisted_again.
Qed.

Lemma login_after_registration_same_session_witness :
  let st1 := Scenario.registering Scenario.janePadded in
  let st2 := Scenario.loggingIn Scenario.janeWrong in
  let w2 := (handleAuth Scenario.online (st1, Scenario.emptyWorld)).2.2 in
  let st2' := updateField field_password "pw1" st2 in
  let r := handleAuth Scenario.online (st2', w2) in
  f_nim (form st2') = "a100" /\
  r.1 = Success {| u_nim := "A100"; u_nama := "Jane Doe";
                   u_email := Some "jane@x.edu"; u_password := None |} /\
  storage r.2.2 = storage w2.
Proof.
  assert (Hdiff : differOnlyInPaddingAndCase " A100 " "a100").
  { exists " ", "A100", " ", "", "a100", "". repeat split; reflexivity. }
  assert (Hok : (handleAuth Scenario.online
                   (Scenario.registering Scenario.janePadded,
                    Scenario.emptyWorld)).1 =
                Success (buildUserPayload Scenario.janePadded)).
  { vm_compute. reflexivity. }
  pose proof (login_after_registration_same_session
                Scenario.online Scenario.online
                (Scenario.registering Scenario.janePadded)
                (updateField field_password "pw1"
                   (Scenario.loggingIn Scenario.janeWrong))
                Scenario.emptyWorld (buildUserPayload Scenario.janePadded)
                eq_refl Hok eq_refl Hdiff eq_refl (conj eq_refl eq_refl))
    as [Hr [Hs _]].
  split; [reflexivity|]. split; [exact Hr | exact Hs].
Defined.

Lemma submits_collection_subseteq net st w r st' w' :
  submits net st w r st' w' ->
  mahasiswaCollection w ⊆ mahasiswaCollection w'.
Proof.
  destruct 1; simpl; try reflexivity.
  inv_reads. simpl in *. now apply insert_subseteq.
Qed.

Lemma step_collection_subseteq a s :
  mahasiswaCollection (App.world s) ⊆
  mahasiswaCollection (App.world (App.step a s)).
Proof.
  destruct s as [ls ms [sto col log]].
  destruct a as [|field value|mode|net|has_delete|scan|]; cbn [App.step].
  - unfold App.onLogin, mountEffect. run_js.
    destruct (sto !! STORAGE_KEYS_nim) as [n|]; [|reflexivity].
    destruct (sto !! STORAGE_KEYS_nama) as [m|]; [|reflexivity].
    destruct (JS.truthy n && JS.truthy m); reflexivity.
  - reflexivity.
  - reflexivity.
  - cbn [App.loginScreen App.world].
    apply (submits_collection_subseteq _ _ _ _ _ _
             (handleAuth_submits net ls
                {| storage := sto; mahasiswaCollection := col; effects := log |})).
  - unfold App.onLogin, handleLocalLogout, clearPersistedUser. run_js.
    destruct has_delete; reflexivity.
  - unfold App.onMahasiswa, MahasiswaScreen.fetchData. run_js.
    destruct scan; reflexivity.
  - reflexivity.
Qed.

(** X12. The application never overwrites and never deletes a document:
    whatever is done, and whatever Firestore does, every document of the
    collection is still there, unchanged, afterwards. A registration
    writes only at a key under which the server had reported no document. *)
Theorem collection_is_append_only (s : App.State) (actions : list App.Action) :
  mahasiswaCollection (App.world s) ⊆
  mahasiswaCollection (App.world (App.run actions s)).
Proof.
  revert s. induction actions as [|a actions IH]; intros s; [reflexivity|].
  etransitivity; [apply (step_collection_subseteq a)|]. apply IH.
Qed.

(** * Beyond the specification: the application as a whole *)

(** X13. Who touches the remote store. Editing the form, switching the
    mode, the session bootstrap, the local logout and the logout perform
    no remote operation; the listing mount performs the scan and nothing
    else; and only a submit in register mode can write: every other action
    logs no [setDoc] and leaves the collection as it was. *)
Theorem remote_store_is_touched_by_submit_and_listing_only (a : App.Action)
    (s : App.State) :
  let es := emitted (App.world s) (App.world (App.step a s)) in
  match a with
  | App.Submit _ =>
      if AuthMode_eqb (authMode (App.loginScreen s)) register then True
      else Forall (fun e => isRemoteWrite e = false) es /\
           mahasiswaCollection (App.world (App.step a s)) =
           mahasiswaCollection (App.world s)
  | App.MountMahasiswa scan =>
      List.filter isRemote es = [GetDocs (bool_decide (is_Some scan))] /\
      mahasiswaCollection (App.world (App.step a s)) =
      mahasiswaCollection (App.world s)
  | _ =>
      Forall (fun e => isRemote e = false) es /\
      mahasiswaCollection (App.world (App.step a s)) =
      mahasiswaCollection (App.world s)
  end.
Proof.
  destruct s as [ls ms [sto col log]].
  destruct a as [|field value|mode|net|has_delete|scan|];
    cbn [App.step App.world App.loginScreen].
  - unfold App.onLogin, mountEffect, emitted. run_js.
    destruct (sto !! STORAGE_KEYS_nim) as [n|];
      [|rewrite drop_all; split; [constructor | reflexivity]].
    destruct (sto !! STORAGE_KEYS_nama) as [m|];
      [|rewrite drop_all; split; [constructor | reflexivity]].
    destruct (JS.truthy n && JS.truthy m); simpl.
    + rewrite drop_app_length. split; [repeat constructor | reflexivity].
    + rewrite drop_all. split; [constructor | reflexivity].
  - unfold emitted. simpl. rewrite drop_all. split; [constructor | reflexivity].
  - unfold emitted. simpl. rewrite drop_all. split; [constructor | reflexivity].
  - destruct (authMode ls) eqn:Hm; cbn [AuthMode_eqb]; [|exact I].
    destruct (handleAuth_submits net ls
                {| storage := sto; mahasiswaCollection := col; effects := log |});
      try congruence; rewrite ?emitted_logged, ?emitted_app; inv_reads;
      split; try reflexivity; repeat constructor.
  - unfold App.onLogin, handleLocalLogout, clearPersistedUser, emitted. run_js.
    destruct has_delete; simpl.
    + rewrite <- !app_assoc, drop_app_length.
      split; [repeat constructor | reflexivity].
    + rewrite drop_all. split; [constructor | reflexivity].
  - unfold App.onMahasiswa, MahasiswaScreen.fetchData, emitted. run_js.
    destruct scan; simpl; rewrite <- ?app_assoc, drop_app_length;
      split; reflexivity.
  - unfold App.onMahasiswa, MahasiswaScreen.handleLogout, emitted. run_js.
    rewrite <- !app_assoc, drop_app_length.
    split; [repeat constructor | reflexivity].
Qed.

(** X14. The application uses three keys of the MMKV instance and no
    other: whatever else the instance holds under another key is the same
    after every sequence of operations. *)
Theorem other_keys_are_untouched (s : App.State) (actions : list App.Action)
    (key : string) :
  key ∉ STORAGE_KEYS_values ->
  storage (App.world (App.run actions s)) !! key = storage (App.world s) !! key.
Proof.
  intros Hkey.
  assert (Hne : key <> STORAGE_KEYS_nim /\ key <> STORAGE_KEYS_nama /\
                key <> STORAGE_KEYS_email).
  { unfold STORAGE_KEYS_values in Hkey. rewrite !not_elem_of_cons in Hkey.
    tauto. }
  destruct Hne as [Hn [Hm He]].
  apply (run_storage_invariant
           (fun st => st !! key = storage (App.world s) !! key)).
  - intros st u H. rewrite persisted_lookup.
    repeat case_decide; try congruence.
  - intros st H. now rewrite !lookup_delete_ne by congruence.
  - reflexivity.
Qed.

Lemma other_keys_are_untouched_witness :
  storage (App.world (App.run Situation.janeSession
                        (Situation.started Situation.themedWorld)))
    !! "theme" = Some "dark".
Proof.
  assert (Hkey : "theme" ∉ STORAGE_KEYS_values).
  { unfold STORAGE_KEYS_values. rewrite !not_elem_of_cons.
    repeat split; try discriminate. apply not_elem_of_nil. }
  exact (other_keys_are_untouched (Situation.started Situation.themedWorld)
           Situation.janeSession "theme" Hkey).
Defined.

(** X15. The session bootstrap only reads. It routes to the listing
    exactly when the identifier and the name of the session are both set
    and non-empty, with the stored session, and an empty email for a
    missing one, as the current user; otherwise it logs nothing and lets
    the form render. The email does not count. *)
Theorem bootstrap_routes_on_identifier_and_name (st : State) (w : World) :
  let r := mountEffect (R := unit) (st, w) in
  let nim := valueAt (storage w) STORAGE_KEYS_nim in
  let nama := valueAt (storage w) STORAGE_KEYS_nama in
  let email := valueAt (storage w) STORAGE_KEYS_email in
  sameStores w r.2.2 /\
  if JS.truthy nim && JS.truthy nama then
    emitted w r.2.2 = [NavigationReplace Mahasiswa] /\
    r.2.1 = setCurrentUser
              (Some {| u_nim := nim; u_nama := nama; u_email := Some email;
                       u_password := None |}) st
  else
    emitted w r.2.2 = [] /\ r.2.1 = setHydrated true st.
Proof.
  destruct w as [sto col log]. unfold mountEffect, valueAt, sameStores, emitted.
  run_js.
  destruct (sto !! STORAGE_KEYS_nim) as [n|]; simpl.
  - destruct (sto !! STORAGE_KEYS_nama) as [m|]; simpl.
    + destruct (JS.truthy n && JS.truthy m); simpl;
        rewrite ?drop_app_length, ?drop_all; auto.
    + rewrite andb_false_r, drop_all. auto.
  - rewrite drop_all. auto.
Qed.

Lemma mountEffect_routes (st : State) (w : World) :
  JS.truthy (valueAt (storage w) STORAGE_KEYS_nim) = true ->
  JS.truthy (valueAt (storage w) STORAGE_KEYS_nama) = true ->
  mountEffect (R := unit) (st, w) =
  (Normal tt,
   (setCurrentUser
      (Some {| u_nim := valueAt (storage w) STORAGE_KEYS_nim;
               u_nama := valueAt (storage w) STORAGE_KEYS_nama;
               u_email := Some (valueAt (storage w) STORAGE_KEYS_email);
               u_password := None |}) st,
    logged w [NavigationReplace Mahasiswa])).
Proof.
  destruct w as [sto col log]. unfold mountEffect, valueAt, logged. run_js.
  destruct (sto !! STORAGE_KEYS_nim) as [n|]; simpl; [|discriminate].
  destruct (sto !! STORAGE_KEYS_nama) as [m|]; simpl; [|discriminate].
  intros -> ->. reflexivity.
Qed.

(** X16. What [persistUser] writes, the next session bootstrap reads
    back: for a user with a non-empty identifier and name, the mount
    effect after [persistUser] routes to the listing with that identifier,
    name and email as the current user, the email empty if the user had
    none, and without a credential. *)
Theorem persisted_session_is_restored (user : User) (st : State) (w : World) :
  JS.truthy (u_nim user) = true ->
  JS.truthy (u_nama user) = true ->
  let w1 := (persistUser (R := unit) user (st, w)).2.2 in
  let r := mountEffect (R := unit) (initialState, w1) in
  currentUser r.2.1 =
    Some {| u_nim := u_nim user; u_nama := u_nama user;
            u_email := Some (JS.nullish (u_email user) "");
            u_password := None |} /\
  emitted w1 r.2.2 = [NavigationReplace Mahasiswa] /\
  render r.2.1 = Spinner.
Proof.
  intros Hn Hm w1 r. subst w1 r. rewrite persistUser_run. cbn [snd].
  destruct (valueAt_persisted user (storage w)) as [En [Em Ee]].
  rewrite mountEffect_routes; cbn [storage]; rewrite ?En, ?Em; auto.
  cbn [fst snd]. rewrite emitted_logged, Ee. auto.
Qed.

Lemma persisted_session_is_restored_witness :
  let user := {| u_nim := "A100"; u_nama := "Jane Doe"; u_email := None;
                 u_password := Some "pw1" |} in
  let w1 := (persistUser (R := unit) user
               (initialState, Scenario.emptyWorld)).2.2 in
  let r := mountEffect (R := unit) (initialState, w1) in
  currentUser r.2.1 =
    Some {| u_nim := "A100"; u_nama := "Jane Doe"; u_email := Some "";
            u_password := None |} /\
  emitted w1 r.2.2 = [NavigationReplace Mahasiswa] /\
  render r.2.1 = Spinner.
Proof.
  exact (persisted_session_is_restored
           {| u_nim := "A100"; u_nama := "Jane Doe"; u_email := None;
              u_password := Some "pw1" |}
           initialState Scenario.emptyWorld eq_refl eq_refl).
Defined.

(** X17. A registration survives a restart: after a successful register
    submit, the next mount of the login screen routes to the listing, with
    the trimmed identifier, name and email of the form as the current
    user. *)
Theorem registration_survives_restart (net : Network) (s : App.State)
    (user : User) :
  authMode (App.loginScreen s) = register ->
  (handleAuth net (App.loginScreen s, App.world s)).1 = Success user ->
  let f := form (App.loginScreen s) in
  let s1 := App.step (App.Submit net) s in
  let s2 := App.step App.MountLogin s1 in
  currentUser (App.loginScreen s2) =
    Some {| u_nim := JS.trim (f_nim f); u_nama := JS.trim (f_nama f);
            u_email := Some (JS.trim (f_email f)); u_password := None |} /\
  emitted (App.world s1) (App.world s2) = [NavigationReplace Mahasiswa] /\
  render (App.loginScreen s2) = Spinner.
Proof.
  intros Hm Hok f s1 s2.
  pose proof (register_success_storage _ _ _ _ Hm Hok) as Hsto.
  pose proof (handleAuth_success_valid _ _ _ _ Hok) as Hv. rewrite Hm in Hv.
  destruct (validateForm_register_fields _ Hv) as [Hn [Hnama _]].
  subst s2 s1 f. cbn [App.step App.world App.loginScreen].
  unfold App.onLogin. cbn [App.world App.loginScreen].
  destruct (valueAt_persisted (buildUserPayload (form (App.loginScreen s)))
              (storage (App.world s))) as [En [Em Ee]].
  rewrite <- Hsto in En, Em, Ee.
  rewrite mountEffect_routes; rewrite ?En, ?Em; auto.
  cbn [fst snd App.world App.loginScreen]. rewrite emitted_logged, Ee.
  auto.
Qed.

Lemma registration_survives_restart_witness :
  let s := {| App.loginScreen := Scenario.registering Scenario.janePadded;
              App.mahasiswaScreen := MahasiswaScreen.initialState;
              App.world := Scenario.emptyWorld |} in
  let s2 := App.step App.MountLogin (App.step (App.Submit Scenario.online) s) in
  currentUser (App.loginScreen s2) =
    Some {| u_nim := "A100"; u_nama := "Jane Doe";
            u_email := Some "jane@x.edu"; u_password := None |} /\
  render (App.loginScreen s2) = Spinner.
Proof.
  assert (Hok : (handleAuth Scenario.online
                   (Scenario.registering Scenario.janePadded,
                    Scenario.emptyWorld)).1 =
                Success (buildUserPayload Scenario.janePadded)).
  { vm_compute. reflexivity. }
  pose proof (registration_survives_restart Scenario.online
                {| App.loginScreen := Scenario.registering Scenario.janePadded;
                   App.mahasiswaScreen := MahasiswaScreen.initialState;
                   App.world := Scenario.emptyWorld |}
                (buildUserPayload Scenario.janePadded) eq_refl Hok)
    as [Hu [_ Hr]].
  split; [exact Hu | exact Hr].
Defined.

(** X18. The local logout depends on the MMKV instance having a [delete]
    method. With it, the three session keys are removed, and the next
    session bootstrap lets the form render. Without it, the optional call
    does nothing: the world is untouched, so a stored session stays and
    the next bootstrap routes as before. Either way the component is reset:
    no current user, the empty form, the login mode. *)
Theorem local_logout_depends_on_delete (has_delete : bool) (st : State)
    (w : World) :
  let r := handleLocalLogout (R := unit) has_delete (st, w) in
  currentUser r.2.1 = None /\
  form r.2.1 = initialFormState /\
  authMode r.2.1 = login /\
  mahasiswaCollection r.2.2 = mahasiswaCollection w /\
  if has_delete then
    storage r.2.2 =
      delete STORAGE_KEYS_email
        (delete STORAGE_KEYS_nama (delete STORAGE_KEYS_nim (storage w))) /\
    emitted w r.2.2 =
      [StorageDelete STORAGE_KEYS_nim; StorageDelete STORAGE_KEYS_nama;
       StorageDelete STORAGE_KEYS_email] /\
    (mountEffect (R := unit) (initialState, r.2.2)).2.1 =
      setHydrated true initialState
  else
    r.2.2 = w /\
    mountEffect (R := unit) (initialState, r.2.2) =
    mountEffect (R := unit) (initialState, w).
Proof.
  destruct w as [sto col log].
  unfold handleLocalLogout, clearPersistedUser, emitted. run_js.
  destruct has_delete; simpl.
  - rewrite <- !app_assoc, drop_app_length.
    repeat split; auto.
    unfold mountEffect. run_js.
    unfold STORAGE_KEYS_nim, STORAGE_KEYS_nama, STORAGE_KEYS_email.
    rewrite lookup_delete_ne by discriminate.
    rewrite lookup_delete_ne by discriminate.
    now rewrite lookup_delete_eq.
  - repeat split.
Qed.

(** * Beyond the specification: the listing *)

Lemma fetchData_success (docs : list QueryDocSnapshot) (s : App.State) :
  App.step (App.MountMahasiswa (Some docs)) s =
  {| App.loginScreen := App.loginScreen s;
     App.mahasiswaScreen :=
       {| MahasiswaScreen.data := map MahasiswaScreen.toMahasiswa docs;
          MahasiswaScreen.loading := false |};
     App.world := logged (App.world s) [GetDocs true] |}.
Proof.
  destruct s as [ls ms [sto col log]]. cbn [App.step].
  unfold App.onMahasiswa, MahasiswaScreen.fetchData, logged. run_js.
  reflexivity.
Qed.

Lemma lookup_map {A B} (f : A -> B) (l : list A) (i : nat) :
  map f l !! i = f <$> l !! i.
Proof.
  revert i. induction l as [|x l IH]; intros [|i]; simpl; auto.
Qed.

(** X19. A listing mount whose scan succeeds shows the documents of the
    scan, one item each and in the order of the scan, with the identifier,
    name and email of the document, or the document id, [Mahasiswa] and
    the empty email for a missing field; it writes nothing and shows no
    alert. A scan that returns no document shows the same empty-list text
    as a scan that fails. *)
Theorem successful_scan_is_listed (docs : list QueryDocSnapshot) (s : App.State) :
  let s1 := App.step (App.MountMahasiswa (Some docs)) s in
  let items := MahasiswaScreen.data (App.mahasiswaScreen s1) in
  length items = length docs /\
  (forall i q, docs !! i = Some q ->
     items !! i =
       Some {| MahasiswaScreen.nim := JS.nullish (d_nim (q_data q)) (q_id q);
               MahasiswaScreen.nama := JS.nullish (d_nama (q_data q)) "Mahasiswa";
               MahasiswaScreen.email := JS.nullish (d_email (q_data q)) "" |}) /\
  MahasiswaScreen.render (App.mahasiswaScreen s1) =
    match docs with
    | [] => MahasiswaScreen.EmptyText "Belum ada data mahasiswa."
    | _ => MahasiswaScreen.Cards (map MahasiswaScreen.toMahasiswa docs)
    end /\
  emitted (App.world s) (App.world s1) = [GetDocs true] /\
  sameStores (App.world s) (App.world s1) /\
  MahasiswaScreen.render
    (App.mahasiswaScreen (App.step (App.MountMahasiswa (Some [])) s)) =
  MahasiswaScreen.render
    (App.mahasiswaScreen (App.step (App.MountMahasiswa None) s)).
Proof.
  intros s1 items. subst s1 items. rewrite !fetchData_success.
  cbn [App.mahasiswaScreen App.world MahasiswaScreen.data].
  rewrite emitted_logged. split; [apply length_map|]. split.
  - intros i q Hq. now rewrite lookup_map, Hq.
  - split; [destruct docs; reflexivity|]. split; [reflexivity|].
    split; [split; reflexivity|].
    destruct s as [ls ms [sto col log]]. cbn [App.step].
    unfold App.onMahasiswa, MahasiswaScreen.fetchData. run_js. reflexivity.
Qed.

(** X20. A registered student appears in the listing: after a successful
    registration, a listing mount whose scan is a scan of the collection
    that includes the new document shows a card with the trimmed name as
    title and the trimmed identifier and email in its rows. *)
Theorem registered_student_is_listed (net : Network) (s : App.State)
    (user : User) (docs : list QueryDocSnapshot) :
  authMode (App.loginScreen s) = register ->
  (handleAuth net (App.loginScreen s, App.world s)).1 = Success user ->
  let f := form (App.loginScreen s) in
  let s1 := App.step (App.Submit net) s in
  scanOf (mahasiswaCollection (App.world s1)) docs ->
  In (normalizeNim (f_nim f)) (map q_id docs) ->
  let s2 := App.step (App.MountMahasiswa (Some docs)) s1 in
  In {| MahasiswaScreen.cardTitle := JS.trim (f_nama f);
        MahasiswaScreen.nimValue := JS.trim (f_nim f);
        MahasiswaScreen.emailValue := JS.trim (f_email f) |}
     (map MahasiswaScreen.renderItem
        (MahasiswaScreen.data (App.mahasiswaScreen s2))).
Proof.
  intros Hm Hok f s1 [_ Hscan] Hin s2.
  pose proof (register_success_document _ _ _ _ Hm Hok) as Hdoc.
  pose proof (handleAuth_success_valid _ _ _ _ Hok) as Hv. rewrite Hm in Hv.
  destruct (validateForm_register_fields _ Hv) as [_ [_ He]].
  subst s2. rewrite fetchData_success.
  cbn [App.mahasiswaScreen MahasiswaScreen.data].
  apply in_map_iff in Hin as [q [Hid Hq]].
  rewrite Forall_forall in Hscan.
  assert (Hdata : q_data q =
                  withNimKey (buildUserPayload f) (normalizeNim (f_nim f))).
  { pose proof (Hscan q (proj2 (list_elem_of_In _ _) Hq)) as Hcol.
    subst s1. cbn [App.step App.world] in Hcol.
    rewrite Hid in Hcol. fold f in Hdoc. congruence. }
  apply in_map_iff. exists (MahasiswaScreen.toMahasiswa q). split.
  - unfold MahasiswaScreen.toMahasiswa, MahasiswaScreen.renderItem.
    rewrite Hdata. simpl. unfold trimValue in *. fold f in He.
    now rewrite He.
  - now apply in_map.
Qed.

Lemma registered_student_is_listed_witness :
  let s := {| App.loginScreen := Scenario.registering Scenario.janePadded;
              App.mahasiswaScreen := MahasiswaScreen.initialState;
              App.world := Scenario.emptyWorld |} in
  let s1 := App.step (App.Submit Scenario.online) s in
  let s2 := App.step (App.MountMahasiswa (Some [Situation.janeSnapshot])) s1 in
  scanOf (mahasiswaCollection (App.world s1)) [Situation.janeSnapshot] /\
  In {| MahasiswaScreen.cardTitle := "Jane Doe";
        MahasiswaScreen.nimValue := "A100";
        MahasiswaScreen.emailValue := "jane@x.edu" |}
     (map MahasiswaScreen.renderItem
        (MahasiswaScreen.data (App.mahasiswaScreen s2))).
Proof.
  assert (Hok : (handleAuth Scenario.online
                   (Scenario.registering Scenario.janePadded,
                    Scenario.emptyWorld)).1 =
                Success (buildUserPayload Scenario.janePadded)).
  { vm_compute. reflexivity. }
  assert (Hscan : scanOf
                    (mahasiswaCollection
                       (App.world
                          (App.step (App.Submit Scenario.online)
                             {| App.loginScreen :=
                                  Scenario.registering Scenario.janePadded;
                                App.mahasiswaScreen := MahasiswaScreen.initialState;
                                App.world := Scenario.emptyWorld |})))
                    [Situation.janeSnapshot]).
  { split.
    - simpl. constructor; [apply not_elem_of_nil | constructor].
    - constructor; [vm_compute; reflexivity | constructor]. }
  split; [exact Hscan|].
  exact (registered_student_is_listed Scenario.online
           {| App.loginScreen := Scenario.registering Scenario.janePadded;
              App.mahasiswaScreen := MahasiswaScreen.initialState;
              App.world := Scenario.emptyWorld |}
           (buildUserPayload Scenario.janePadded) [Situation.janeSnapshot]
           eq_refl Hok Hscan (or_introl eq_refl)).
Defined.

Lemma elem_of_map_2 {A B} (f : A -> B) (l : list A) (x : A) :
  x ∈ l -> f x ∈ map f l.
Proof.
  induction 1; simpl; [apply list_elem_of_here | now apply list_elem_of_further].
Qed.

Lemma NoDup_map_source {A B} (g : A -> B) (l : list A) :
  NoDup (map g l) -> NoDup l.
Proof.
  induction l as [|x l IH]; simpl; intros H; [constructor|].
  apply NoDup_cons in H as [Hx Hl]. apply NoDup_cons. split; [|auto].
  intros Hin. apply Hx. now apply elem_of_map_2.
Qed.

Lemma submits_keyedByNim net st w r st' w' :
  submits net st w r st' w' ->
  keyedByNim (mahasiswaCollection w) -> keyedByNim (mahasiswaCollection w').
Proof.
  destruct 1; simpl; auto. intros Hcol.
  apply map_Forall_insert_2; [|exact Hcol].
  eexists. split; [reflexivity|]. simpl.
  unfold normalizeNim, trimValue. now rewrite trim_idempotent.
Qed.

Lemma run_keyedByNim actions s :
  keyedByNim (mahasiswaCollection (App.world s)) ->
  keyedByNim (mahasiswaCollection (App.world (App.run actions s))).
Proof.
  revert s. induction actions as [|a actions IH]; intros s H; [exact H|].
  apply IH. clear IH.
  destruct s as [ls ms [sto col log]].
  destruct a as [|field value|mode|net|has_delete|scan|]; cbn [App.step].
  - unfold App.onLogin, mountEffect. run_js.
    destruct (sto !! STORAGE_KEYS_nim) as [n|]; [|exact H].
    destruct (sto !! STORAGE_KEYS_nama) as [m|]; [|exact H].
    destruct (JS.truthy n && JS.truthy m); exact H.
  - exact H.
  - exact H.
  - cbn [App.loginScreen App.world] in *.
    exact (submits_keyedByNim _ _ _ _ _ _
             (handleAuth_submits net ls
                {| storage := sto; mahasiswaCollection := col; effects := log |})
             H).
  - unfold App.onLogin, handleLocalLogout, clearPersistedUser. run_js.
    destruct has_delete; exact H.
  - unfold App.onMahasiswa, MahasiswaScreen.fetchData. run_js.
    destruct scan; exact H.
  - exact H.
Qed.

(** X21. The keys of the list are unique: when the collection holds only
    documents that this application registered, whatever was done, the
    identifiers that [keyExtractor] gives to the items of a scan of the
    collection are pairwise different, because each stored identifier
    normalizes to the key of its document. *)
Theorem list_keys_are_unique (actions : list App.Action)
    (docs : list QueryDocSnapshot) :
  let collection :=
    mahasiswaCollection (App.world (App.run actions (App.init ∅))) in
  scanOf collection docs ->
  NoDup (map MahasiswaScreen.keyExtractor
           (map MahasiswaScreen.toMahasiswa docs)).
Proof.
  intros collection [Hids Hdocs].
  assert (Hkeyed : keyedByNim collection).
  { apply run_keyedByNim. simpl. apply map_Forall_empty. }
  apply (NoDup_map_source normalizeNim).
  rewrite !map_map.
  replace (map (fun q => normalizeNim (MahasiswaScreen.keyExtractor
                                         (MahasiswaScreen.toMahasiswa q))) docs)
    with (map q_id docs); [exact Hids|].
  clear Hids. induction Hdocs as [|q docs Hq _ IH]; [reflexivity|].
  simpl. rewrite IH. f_equal.
  destruct (Hkeyed _ _ Hq) as [n [Hn Hkey]].
  now rewrite Hn.
Qed.

Lemma list_keys_are_unique_witness :
  let collection :=
    mahasiswaCollection
      (App.world (App.run Situation.twoRegistrations (App.init ∅))) in
  let docs := [Situation.janeSnapshot; Situation.budiSnapshot] in
  scanOf collection docs /\
  map MahasiswaScreen.keyExtractor (map MahasiswaScreen.toMahasiswa docs) =
    ["A100"; "B200"] /\
  NoDup (map MahasiswaScreen.keyExtractor (map MahasiswaScreen.toMahasiswa docs)).
Proof.
  assert (Hscan : scanOf
                    (mahasiswaCollection
                       (App.world (App.run Situation.twoRegistrations
                                     (App.init ∅))))
                    [Situation.janeSnapshot; Situation.budiSnapshot]).
  { split.
    - simpl. constructor.
      + intros H. apply elem_of_cons in H as [H|H];
          [discriminate H | exact (not_elem_of_nil _ H)].
      + constructor; [apply not_elem_of_nil | constructor].
    - constructor; [vm_compute; reflexivity|].
      constructor; [vm_compute; reflexivity | constructor]. }
  split; [exact Hscan|]. split; [reflexivity|].
  exact (list_keys_are_unique Situation.twoRegistrations
           [Situation.janeSnapshot; Situation.budiSnapshot] Hscan).
Defined.

(** * Beyond the specification: the form *)

(** X22. Switching the mode. Pressing the button of the current mode
    changes nothing; pressing the other one changes the mode and empties
    the form, and touches nothing else. So the result is always in the
    target mode, switching twice to the same mode is switching once, and
    switching there and back leaves the mode and loses what was typed. *)
Theorem switchMode_resets_the_form (target : AuthMode) (st : State) :
  authMode (switchMode target st) = target /\
  form (switchMode target st) =
    (if AuthMode_eqb (authMode st) target then form st else initialFormState) /\
  currentUser (switchMode target st) = currentUser st /\
  loading (switchMode target st) = loading st /\
  hydrated (switchMode target st) = hydrated st /\
  switchMode target (switchMode target st) = switchMode target st /\
  switchMode (authMode st) (switchMode target st) =
    (if AuthMode_eqb (authMode st) target then st else resetForm st).
Proof.
  destruct st as [m f u l h]. destruct m, target; repeat split.
Qed.

Lemma validateForm_iff mode f :
  validateForm mode f = None <->
  JS.trim (f_nim f) <> "" /\ JS.trim (f_password f) <> "" /\
  (if AuthMode_eqb mode register
   then JS.trim (f_nama f) <> "" /\
        RegExp.test emailRegex (JS.trim (f_email f)) = true
   else True).
Proof.
  unfold validateForm, trimValue.
  destruct (AuthMode_eqb mode register); rewrite <- !truthy_true;
    (destruct (JS.truthy (JS.trim (f_nim f))); cbn [negb];
     [|split; [discriminate | intros [H _]; discriminate]]);
    (destruct (JS.truthy (JS.trim (f_password f))); cbn [negb];
     [|split; [discriminate | intros [_ [H _]]; discriminate]]);
    [|split; auto].
  destruct (JS.truthy (JS.trim (f_nama f))); cbn [negb];
    [|split; [discriminate | intros [_ [_ [H _]]]; discriminate]].
  destruct (RegExp.test emailRegex (JS.trim (f_email f))) eqn:He;
    destruct (JS.truthy (JS.trim (f_email f))) eqn:Ht; cbn [negb];
    try (split; [discriminate | intros [_ [_ [_ H]]]; discriminate]);
    try (split; auto).
  exfalso. apply truthy_false in Ht. rewrite Ht in He. discriminate.
Qed.

(** X23. What validation asks for. A form passes exactly when the trimmed
    identifier and the trimmed credential are not empty and, in register
    mode, the trimmed name is not empty and the email pattern matches the
    trimmed email. So a form that passes for registration passes for
    login, and the login check looks at the identifier and the credential
    only. *)
Theorem validation_requirements :
  (forall mode f,
     validateForm mode f = None <->
     JS.trim (f_nim f) <> "" /\ JS.trim (f_password f) <> "" /\
     (if AuthMode_eqb mode register
      then JS.trim (f_nama f) <> "" /\
           RegExp.test emailRegex (JS.trim (f_email f)) = true
      else True)) /\
  (forall f, validateForm register f = None -> validateForm login f = None) /\
  (forall f nama email,
     validateForm login
       {| f_nim := f_nim f; f_nama := nama; f_email := email;
          f_password := f_password f |} =
     validateForm login f).
Proof.
  split; [exact validateForm_iff|]. split.
  - intros f H. apply validateForm_iff in H as [Hn [Hp _]].
    apply validateForm_iff. cbn [AuthMode_eqb]. auto.
  - intros f nama email. reflexivity.
Qed.

Lemma all_match_AnyChar s :
  RegExp.all_match RegExp.AnyChar s <-> s <> "" /\ noLineTerminator s = true.
Proof.
  split.
  - induction 1 as [c Hc|c s Hc Hs [_ IH]]; simpl in *;
      (split; [discriminate|]); rewrite Hc; auto.
  - intros [Hne Hs]. induction s as [|c s IH]; [contradiction|].
    simpl in Hs. apply andb_true_iff in Hs as [Hc Hs].
    destruct s as [|d s].
    + now apply RegExp.all_match_one.
    + apply RegExp.all_match_more; [exact Hc|]. apply IH; [discriminate | exact Hs].
Qed.

(** X24. What the email pattern accepts. The pattern matches a string
    exactly when the string has somewhere in it an [@] and a later dot
    with a piece before the [@], a piece between them and a piece after the
    dot, each not empty and free of line breaks; what stands before and
    after that is not looked at, so an address with more than one [@], with
    spaces, or with text around it passes. *)
Theorem email_pattern_meaning (s : string) :
  RegExp.test emailRegex s = true <->
  exists pre x y z post,
    s = pre ++ x ++ "@" ++ y ++ "." ++ z ++ post /\
    (x <> "" /\ noLineTerminator x = true) /\
    (y <> "" /\ noLineTerminator y = true) /\
    (z <> "" /\ noLineTerminator z = true).
Proof.
  rewrite test_spec. split.
  - intros [pre [w [post [-> Hw]]]]. unfold emailRegex in Hw.
    inversion Hw as [| |? ? x w1 Hx H1]; subst; clear Hw.
    inversion H1 as [|? c1 ? w2 Hc1 H2|]; subst; clear H1.
    inversion H2 as [| |? ? y w3 Hy H3]; subst; clear H2.
    inversion H3 as [|? c2 ? w4 Hc2 H4|]; subst; clear H3.
    inversion H4 as [| |? ? z w5 Hz H5]; subst; clear H4.
    inversion H5; subst; clear H5.
    simpl in Hc1, Hc2. apply Ascii.eqb_eq in Hc1, Hc2. subst c1 c2.
    exists pre, x, y, z, post. rewrite append_nil_r.
    apply all_match_AnyChar in Hx, Hy, Hz.
    split; [|tauto].
    repeat (rewrite append_assoc || rewrite append_cons || rewrite append_nil_l).
    reflexivity.
  - intros [pre [x [y [z [post [-> [Hx [Hy Hz]]]]]]]].
    apply all_match_AnyChar in Hx, Hy, Hz.
    exists pre, (x ++ "@" ++ y ++ "." ++ z), post. split.
    + repeat (rewrite append_assoc || rewrite append_cons || rewrite append_nil_l).
      reflexivity.
    + unfold emailRegex.
      apply RegExp.denotes_plus; [exact Hx|].
      apply (RegExp.denotes_one _ "@"%char); [reflexivity|].
      apply RegExp.denotes_plus; [exact Hy|].
      apply (RegExp.denotes_one _ "."%char); [reflexivity|].
      rewrite <- (append_nil_r z).
      apply RegExp.denotes_plus; [exact Hz | constructor].
Qed.

Lemma isUpper_toLowerChar c : JS.isUpper (JS.toLowerChar c) = false.
Proof. destruct c as [[] [] [] [] [] [] [] []]; reflexivity. Qed.

Lemma noUpper_toLowerCase s : noUpper (JS.toLowerCase s) = true.
Proof.
  induction s as [|c s IH]; simpl; [reflexivity|].
  now rewrite isUpper_toLowerChar, IH.
Qed.

(** X25. The document key is canonical: normalizing a key again changes
    nothing, a key has no white space at its ends and no upper-case
    letter, and the key is empty exactly for an identifier that is all
    white space. *)
Theorem normalizeNim_is_canonical (value : string) :
  normalizeNim (normalizeNim value) = normalizeNim value /\
  JS.trim (normalizeNim value) = normalizeNim value /\
  JS.leadingWhiteSpace (normalizeNim value) = false /\
  JS.trailingWhiteSpace (normalizeNim value) = false /\
  noUpper (normalizeNim value) = true /\
  (normalizeNim value = "" <-> JS.allWhiteSpace value = true).
Proof.
  assert (Htrim : JS.trim (normalizeNim value) = normalizeNim value).
  { unfold normalizeNim. now rewrite <- toLowerCase_trim, trim_idempotent. }
  split; [apply normalizeNim_idempotent|]. split; [exact Htrim|].
  split; [|split; [|split]].
  - rewrite <- Htrim. unfold JS.trim.
    apply leadingWhiteSpace_trimEnd, leadingWhiteSpace_trimStart.
  - rewrite <- Htrim. apply trailingWhiteSpace_trimEnd.
  - apply noUpper_toLowerCase.
  - unfold normalizeNim. rewrite toLowerCase_nil. apply trim_nil_allWhiteSpace.
Qed.

Lemma session_values_all_or_nothing_witness :
  let st := storage (App.world (App.run Situation.janeSession
                                  (App.init {[ "b200" := Scenario.janeDoc ]}))) in
  sessionEmpty st \/ sessionFilled st.
Proof.
  apply (session_values_all_or_nothing {[ "b200" := Scenario.janeDoc ]}
           Situation.janeSession).
  - apply map_Forall_singleton. reflexivity.
  - reflexivity.
Defined.
